(** * clog: coloured logging with per-caller verbosity control

    A shallow embedding of package [clog] (github.com/mewpkg/clog) and the
    properties of its level registry and caller-attributed emitter.

    The repository holds three revisions of the one source file:
    - [src/unnamed/part_000]: exact-match registry, [skip] looks at the
      function-level and at the package-level threshold, every message on
      standard error (module [Part000]);
    - [src/clog.go]: exact-match registry, [skip] returns at the first match,
      one configurable sink per tier (module [Clog]);
    - [src/unnamed/part_001]: hierarchical registry lookup through
      [filepath.Dir], prefix flags, [mainPrefixName], one write lock
      (module [Part001]).

    Go strings are byte strings: [string].  Go [int] values ([Level], indices,
    line numbers) are only compared, or offset within the length of a string,
    so they are embedded in [Z] without wrap-around.  The mutexes [mu] and
    [outputMutex] only serialise concurrent callers; the embedding is of one
    caller at a time and leaves them out. *)

From Stdlib Require Import ZArith String Ascii List Lia Bool DecimalString.
From stdpp Require Import gmap strings.
Import ListNotations.

Local Open Scope string_scope.
Local Open Scope Z_scope.

(* Appending to a string literal computes, as the other string functions do. *)
#[local] Arguments String.append !_ _ / : simpl nomatch.

(** ** Byte strings: the operations of package [strings] and slicing *)

(** [strings.Index(s, sep)] for a separator of one byte: the index of the
    first occurrence, or [-1]. *)
Fixpoint Index (s : string) (sep : ascii) : Z :=
  match s with
  | EmptyString => -1
  | String c t =>
      if Ascii.eqb c sep then 0
      else let r := Index t sep in if r =? -1 then -1 else r + 1
  end.

(** [strings.LastIndex(s, sep)] for a separator of one byte: the index of the
    last occurrence, or [-1]. *)
Fixpoint LastIndex (s : string) (sep : ascii) : Z :=
  match s with
  | EmptyString => -1
  | String c t =>
      let r := LastIndex t sep in
      if r =? -1 then (if Ascii.eqb c sep then 0 else -1) else r + 1
  end.

Fixpoint take (n : nat) (s : string) : string :=
  match n, s with
  | S n', String c t => String c (take n' t)
  | _, _ => EmptyString
  end.

Fixpoint drop (n : nat) (s : string) : string :=
  match n, s with
  | S n', String _ t => drop n' t
  | _, _ => s
  end.

(** [s[:i]] and [s[i:]].  Go panics when [i] is outside [0..len(s)]; every
    slice of the program stays inside (lemmas [getPkgPath_in_range],
    [getPkgName_in_range] and [Dir_in_range]). *)
Definition slice_to (s : string) (i : Z) : string := take (Z.to_nat i) s.
Definition slice_from (s : string) (i : Z) : string := drop (Z.to_nat i) s.

Definition len (s : string) : Z := Z.of_nat (String.length s).

(** ** Path-qualified function names *)

(** [getPkgPath] returns the package path of the path-qualified function
    name. *)
Definition getPkgPath (name : string) : string :=
  (* find last slash of package path. *)
  let end_ := 0 in
  let pos := LastIndex name "/" in
  let end_ := if negb (pos =? -1) then pos + 1 else end_ in
  (* strip function name. *)
  let pos := Index (slice_from name end_) "." in
  let end_ := if negb (pos =? -1) then end_ + pos else end_ in
  slice_to name end_.

(** [getFuncName] returns the function name of the path-qualified function
    name. *)
Definition getFuncName (name : string) : string :=
  let pos := LastIndex name "/" in
  let name := if negb (pos =? -1) then slice_from name (pos + 1) else name in
  let pos := Index name "." in
  let name := if negb (pos =? -1) then slice_from name (pos + 1) else name in
  name.

(** The package name as [getPkgName] derives it in every revision, before
    [Part001] applies [mainPrefixName]. *)
Definition pkgNameOf (name : string) : string :=
  (* strip package path; keep package name and function name. *)
  let pos := LastIndex name "/" in
  let name := if negb (pos =? -1) then slice_from name (pos + 1) else name in
  (* get package name. *)
  let pos := Index name "." in
  let name := if negb (pos =? -1) then slice_to name pos else name in
  name.

(** ** [path/filepath] on a Unix build: [Clean] and [Dir]

    [filepath.Dir] belongs to Go's standard library, not to the repository.
    It is embedded from the library's implementation for a target whose only
    separator is the slash and that has no volume names: [Dir] cuts the path
    after its last separator and passes the rest to [Clean]. *)

Definition isPathSeparator (c : ascii) : bool := Ascii.eqb c "/".

(** [r == n || os.IsPathSeparator(path[r])] for the unread input [path[r:]]. *)
Definition atElemEnd (rest : string) : bool :=
  match rest with
  | EmptyString => true
  | String c _ => isPathSeparator c
  end.

(** The output buffer of [Clean] is kept as the list of its bytes, last
    written first; [out.w] is its length.  [backtrack] is the removal of the
    last element on a [..]:
    [out.w--; for out.w > dotdot && !os.IsPathSeparator(out.index(out.w)) { out.w-- }]. *)
Fixpoint backtrack (out : list ascii) (dotdot : nat) : list ascii :=
  match out with
  | [] => []
  | c :: out' =>
      if (dotdot <? length out')%nat && negb (isPathSeparator c)
      then backtrack out' dotdot
      else out'
  end.

(** The loop [for r < n] of [Clean] on the unread input [rest].  [copying] is
    set while the inner loop that copies a real path element is running; the
    separator that ends the element is then consumed as the empty element it
    is for the outer loop. *)
Fixpoint cleanLoop (rooted copying : bool) (rest : string)
    (out : list ascii) (dotdot : nat) {struct rest} : list ascii :=
  match rest with
  | EmptyString => out
  | String c rest' =>
      if copying then
        if isPathSeparator c then cleanLoop rooted false rest' out dotdot
        else cleanLoop rooted true rest' (c :: out) dotdot
      else if isPathSeparator c then
        (* empty path element *)
        cleanLoop rooted false rest' out dotdot
      else if Ascii.eqb c "." && atElemEnd rest' then
        (* . element *)
        cleanLoop rooted false rest' out dotdot
      else
        let element :=
          (* real path element: add slash if needed, copy element *)
          let out :=
            if rooted && negb (length out =? 1)%nat
               || negb rooted && negb (length out =? 0)%nat
            then "/"%char :: out else out in
          cleanLoop rooted true rest' (c :: out) dotdot in
        match rest' with
        | String c' rest'' =>
            if Ascii.eqb c "." && Ascii.eqb c' "." && atElemEnd rest'' then
              (* .. element: remove to last separator *)
              if (dotdot <? length out)%nat then
                (* can backtrack *)
                cleanLoop rooted false rest'' (backtrack out dotdot) dotdot
              else if negb rooted then
                (* cannot backtrack, but not rooted, so append .. element. *)
                let out := if (0 <? length out)%nat then "/"%char :: out else out in
                let out := "."%char :: "."%char :: out in
                cleanLoop rooted false rest'' out (length out)
              else cleanLoop rooted false rest'' out dotdot
            else element
        | EmptyString => element
        end
  end.

(** [filepath.Clean]. *)
Definition Clean (path : string) : string :=
  match path with
  | EmptyString => "."
  | String c rest =>
      let rooted := isPathSeparator c in
      let out :=
        if rooted then cleanLoop true false rest ["/"%char] 1
        else cleanLoop false false path [] 0 in
      (* Turn empty string into "." *)
      if (length out =? 0)%nat then "." else string_of_list_ascii (rev out)
  end.

(** [filepath.Dir]: all but the last element of [path], cleaned. *)
Definition Dir (path : string) : string :=
  (* i := len(path) - 1; for i >= 0 && !os.IsPathSeparator(path[i]) { i-- } *)
  let i := LastIndex path "/" in
  Clean (slice_to path (i + 1)).


(** ** Levels, call stacks and the world outside the package *)

(** [Level] specifies a log level which denotes the importance or severity of
    a log event. *)
Abbreviation Level := Z.

Definition LevelDebug : Level := -4.
Definition LevelInfo : Level := 0.
Definition LevelWarn : Level := 4.
Definition LevelError : Level := 8.

(** What [runtime.FuncForPC] tells about a program counter. *)
Record Func := { Name : string; File : string; Line : Z }.

(** A call frame is the program counter [runtime.Callers] reports for it;
    [None] is a counter for which [runtime.FuncForPC] returns [nil].  A call
    stack lists the frames from the innermost outwards. *)
Definition Frame : Type := option Func.

(** The frame of a function of the package itself while it runs. *)
Definition frameOf (fn : string) : Frame :=
  Some {| Name := "github.com/mewpkg/clog." +:+ fn; File := "clog.go"; Line := 0 |}.

(** [callerName] returns the path-qualified function name of the caller.
    [stack] is the stack on entry: its first frame is the function that calls
    [callerName]. *)
Definition callerName (skip : nat) (stack : list Frame) : string * string * Z * bool :=
  (* always skip the 2 deepest call frames: callerName and runtime.Callers *)
  let frames :=
    Some {| Name := "runtime.Callers"; File := "extern.go"; Line := 0 |}
    :: frameOf "callerName" :: stack in
  let pcs := firstn 1 (skipn (skip + 2) frames) in
  match pcs with
  | [pc] =>
      match pc with
      | None => ("", "", 0, false)
      | Some fn => (Name fn, File fn, Line fn, true)
      end
  | _ => ("", "", 0, false)
  end.

(** [getQualifiedPaths] returns the qualified package and qualified function
    paths of the caller. *)
Definition getQualifiedPaths (stack : list Frame) : string * string :=
  (* skip 3 call frames: {Debugf,Warnf}, skip and getQualifiedPaths. *)
  let '(pathQualifiedName, _, _, ok) := callerName 3 (frameOf "getQualifiedPaths" :: stack) in
  if negb ok then ("", "")
  else
    let funcPath := pathQualifiedName in
    let pkgPath := getPkgPath funcPath in
    (pkgPath, funcPath).

(** [strconv.Itoa], the verb [%d] of [fmt]. *)
Definition itoa (n : Z) : string := NilZero.string_of_int (Z.to_int n).

(** The sinks of the tiers ([io.Writer] values), told apart by an identity. *)
Inductive Writer := Stderr | Sink (id : nat).

(** What the process does to the outside: a call of [Write] on a sink, in the
    order of the calls, and [os.Exit]. *)
Inductive Event :=
  | EvWrite (w : Writer) (p : string)
  | EvExit (code : Z).

Definition newline : string := String (ascii_of_nat 10) EmptyString.

(** The formatting of package [fmt] and the styles of package
    [github.com/mewpkg/term] are operations of other packages; the embedding
    takes them as they are. *)
Class Externals := {
  any : Type;
  (** [fmt.Sprint(args...)] *)
  Sprint : list any -> string;
  (** [fmt.Sprintf(format, args...)] *)
  Sprintf : string -> list any -> string;
  (** the operands of [fmt.Sprintln(args...)] in their default formats with
      spaces between them; [Sprintln] appends a newline. *)
  Sprintsp : list any -> string;
  (** a string as an operand; [fmt.Sprint(s)] is [s], and [fmt.Sprintln()]
      is the newline alone. *)
  anyString : string -> any;
  Sprint_string : forall s, Sprint [anyString s] = s;
  Sprintsp_nil : Sprintsp [] = "";
  MagentaBold : string -> string;
  CyanBold : string -> string;
  RedBold : string -> string;
  WhiteBold : string -> string
}.

(** [getFileLine] returns the file name and line number of the caller. *)
Definition getFileLine `{Externals} (stack : list Frame) : string :=
  (* skip 2 call frames: {Debugf,Warnf} and getFileLine. *)
  let '(_, file, line, ok) := callerName 2 (frameOf "getFileLine" :: stack) in
  if negb ok then ""
  else
    let s := file +:+ ":" +:+ itoa line in
    let fileLine := WhiteBold (s +:+ ":") +:+ " " in
    fileLine.


(** ** Revision [src/unnamed/part_000]: the level registry and [skip] *)

Module Part000.

(** [SetPathLevel] sets the log level of the given path at package or
    function granularity. *)
Definition SetPathLevel (path : string) (level : Level)
    (activeLevel : gmap string Level) : gmap string Level :=
  <[path := level]> activeLevel.

(** [PathLevel] returns the current log level of the given path, and a
    boolean indicating whether the log level was set. *)
Definition PathLevel (path : string) (activeLevel : gmap string Level) : Level * bool :=
  match activeLevel !! path with
  | Some level => (level, true)
  | None => (0, false)
  end.

(** [skip] reports whether to skip log output of the given log level for the
    package path and function path of the caller.  In this revision a
    function-level match that does not suppress falls through to the
    package-level check. *)
Definition skip (stack : list Frame) (cur : Level)
    (activeLevel : gmap string Level) : bool :=
  let '(pkgPath, funcPath) := getQualifiedPaths (frameOf "skip" :: stack) in
  let '(funcLevel, ok) := PathLevel funcPath activeLevel in
  if ok && (funcLevel >? cur) then true
  else
    let '(pkgLevel, ok) := PathLevel pkgPath activeLevel in
    if ok && (pkgLevel >? cur) then true
    else false.

(** The state of a process of this revision: the registry and the events so
    far, oldest first.  Every message goes to [os.Stderr]. *)
Record State := mkState {
  activeLevel : gmap string Level;
  events : list Event
}.

Definition init : State := mkState ∅ [].

Definition emit (e : Event) (st : State) : State :=
  mkState (activeLevel st) (events st ++ [e]).

(** [getPkgName] returns the package name of the path-qualified function
    name. *)
Definition getPkgName (name : string) : string := pkgNameOf name.

Section Emitter.
Context `{Externals}.

Definition Fprint (w : Writer) (args : list any) : State -> State :=
  emit (EvWrite w (Sprint args)).
Definition Fprintf (w : Writer) (format : string) (args : list any) : State -> State :=
  emit (EvWrite w (Sprintf format args)).
Definition Fprintln (w : Writer) (args : list any) : State -> State :=
  emit (EvWrite w (Sprintsp args +:+ newline)).
Definition os_Exit (code : Z) : State -> State := emit (EvExit code).

(** [getPrefix] returns the prefix used for logging based on the function
    name of the caller and the given terminal color. *)
Definition getPrefix (stack : list Frame) (colorFunc : string -> string) : string :=
  (* skip 2 call frames: {Debugf,Warnf} and getPrefix. *)
  let '(pathQualifiedName, _, _, ok) := callerName 2 (frameOf "getPrefix" :: stack) in
  if negb ok then ""
  else
    let pkgName := getPkgName pathQualifiedName in
    let prefix := colorFunc (pkgName +:+ ":") +:+ " " in
    prefix.

Definition Debug (caller : list Frame) (arg : any) (st : State) : State :=
  let stack := frameOf "Debug" :: caller in
  if skip stack LevelDebug (activeLevel st) then st
  else
    let prefix := getPrefix stack MagentaBold in
    let st := Fprint Stderr [anyString prefix] st in
    let st := Fprint Stderr [arg] st in
    Fprintln Stderr [] st.

Definition Debugf (caller : list Frame) (format : string) (args : list any) (st : State) : State :=
  let stack := frameOf "Debugf" :: caller in
  if skip stack LevelDebug (activeLevel st) then st
  else
    let prefix := getPrefix stack MagentaBold in
    let st := Fprint Stderr [anyString prefix] st in
    let st := Fprintf Stderr format args st in
    Fprintln Stderr [] st.

Definition Debugln (caller : list Frame) (args : list any) (st : State) : State :=
  let stack := frameOf "Debugln" :: caller in
  if skip stack LevelDebug (activeLevel st) then st
  else
    let prefix := getPrefix stack MagentaBold in
    let st := Fprint Stderr [anyString prefix] st in
    Fprintln Stderr args st.

Definition Info (caller : list Frame) (arg : any) (st : State) : State :=
  let stack := frameOf "Info" :: caller in
  if skip stack LevelInfo (activeLevel st) then st
  else
    let prefix := getPrefix stack CyanBold in
    let st := Fprint Stderr [anyString prefix] st in
    let st := Fprint Stderr [arg] st in
    Fprintln Stderr [] st.

Definition Infof (caller : list Frame) (format : string) (args : list any) (st : State) : State :=
  let stack := frameOf "Infof" :: caller in
  if skip stack LevelInfo (activeLevel st) then st
  else
    let prefix := getPrefix stack CyanBold in
    let st := Fprint Stderr [anyString prefix] st in
    let st := Fprintf Stderr format args st in
    Fprintln Stderr [] st.

Definition Infoln (caller : list Frame) (args : list any) (st : State) : State :=
  let stack := frameOf "Infoln" :: caller in
  if skip stack LevelInfo (activeLevel st) then st
  else
    let prefix := getPrefix stack CyanBold in
    let st := Fprint Stderr [anyString prefix] st in
    Fprintln Stderr args st.

Definition Warn (caller : list Frame) (arg : any) (st : State) : State :=
  let stack := frameOf "Warn" :: caller in
  if skip stack LevelWarn (activeLevel st) then st
  else
    let prefix := getPrefix stack RedBold in
    let prefix := prefix +:+ getFileLine stack in
    let st := Fprint Stderr [anyString prefix] st in
    let st := Fprint Stderr [arg] st in
    Fprintln Stderr [] st.

Definition Warnf (caller : list Frame) (format : string) (args : list any) (st : State) : State :=
  let stack := frameOf "Warnf" :: caller in
  if skip stack LevelWarn (activeLevel st) then st
  else
    let prefix := getPrefix stack RedBold in
    let prefix := prefix +:+ getFileLine stack in
    let st := Fprint Stderr [anyString prefix] st in
    let st := Fprintf Stderr format args st in
    Fprintln Stderr [] st.

Definition Warnln (caller : list Frame) (args : list any) (st : State) : State :=
  let stack := frameOf "Warnln" :: caller in
  if skip stack LevelWarn (activeLevel st) then st
  else
    let prefix := getPrefix stack RedBold in
    let prefix := prefix +:+ getFileLine stack in
    let st := Fprint Stderr [anyString prefix] st in
    Fprintln Stderr args st.

Definition Fatal (caller : list Frame) (arg : any) (st : State) : State :=
  let stack := frameOf "Fatal" :: caller in
  if skip stack LevelError (activeLevel st) then st
  else
    let prefix := getPrefix stack RedBold in
    let prefix := prefix +:+ getFileLine stack in
    let st := Fprint Stderr [anyString prefix] st in
    let st := Fprint Stderr [arg] st in
    let st := Fprintln Stderr [] st in
    os_Exit 1 st.

Definition Fatalf (caller : list Frame) (format : string) (args : list any) (st : State) : State :=
  let stack := frameOf "Fatalf" :: caller in
  if skip stack LevelError (activeLevel st) then st
  else
    let prefix := getPrefix stack RedBold in
    let prefix := prefix +:+ getFileLine stack in
    let st := Fprint Stderr [anyString prefix] st in
    let st := Fprintf Stderr format args st in
    let st := Fprintln Stderr [] st in
    os_Exit 1 st.

Definition Fatalln (caller : list Frame) (args : list any) (st : State) : State :=
  let stack := frameOf "Fatalln" :: caller in
  if skip stack LevelError (activeLevel st) then st
  else
    let prefix := getPrefix stack RedBold in
    let prefix := prefix +:+ getFileLine stack in
    let st := Fprint Stderr [anyString prefix] st in
    let st := Fprintln Stderr args st in
    os_Exit 1 st.

End Emitter.

End Part000.

(** ** Revision [src/clog.go] *)

Module Clog.

Record State := mkState {
  (** [activeLevel] specifies the active log level at package and function
      granularity. *)
  activeLevel : gmap string Level;
  debugOutput : Writer;
  infoOutput : Writer;
  warnOutput : Writer;
  errorOutput : Writer;
  (** the events of the process so far, oldest first *)
  events : list Event
}.

(** The state a process starts in. *)
Definition init : State := mkState ∅ Stderr Stderr Stderr Stderr [].

Definition SetPathLevel (path : string) (level : Level) (st : State) : State :=
  mkState (<[path := level]> (activeLevel st))
    (debugOutput st) (infoOutput st) (warnOutput st) (errorOutput st) (events st).

Definition PathLevel (path : string) (activeLevel : gmap string Level) : Level * bool :=
  match activeLevel !! path with
  | Some level => (level, true)
  | None => (0, false)
  end.

(** [skip] reports whether to skip log output of the given log level for the
    package path and function path of the caller. *)
Definition skip (stack : list Frame) (cur : Level)
    (activeLevel : gmap string Level) : bool :=
  let '(pkgPath, funcPath) := getQualifiedPaths (frameOf "skip" :: stack) in
  let '(funcLevel, ok) := PathLevel funcPath activeLevel in
  if ok then funcLevel >? cur
  else
    let '(pkgLevel, ok) := PathLevel pkgPath activeLevel in
    if ok then pkgLevel >? cur
    else false.

Definition SetDebugOutput (w : Writer) (st : State) : State :=
  mkState (activeLevel st) w (infoOutput st) (warnOutput st) (errorOutput st) (events st).
Definition SetInfoOutput (w : Writer) (st : State) : State :=
  mkState (activeLevel st) (debugOutput st) w (warnOutput st) (errorOutput st) (events st).
Definition SetWarnOutput (w : Writer) (st : State) : State :=
  mkState (activeLevel st) (debugOutput st) (infoOutput st) w (errorOutput st) (events st).
Definition SetErrorOutput (w : Writer) (st : State) : State :=
  mkState (activeLevel st) (debugOutput st) (infoOutput st) (warnOutput st) w (events st).

Definition emit (e : Event) (st : State) : State :=
  mkState (activeLevel st) (debugOutput st) (infoOutput st) (warnOutput st)
    (errorOutput st) (events st ++ [e]).

(** [getPkgName] returns the package name of the path-qualified function
    name. *)
Definition getPkgName (name : string) : string := pkgNameOf name.

Section Emitter.
Context `{Externals}.

Definition Fprint (w : Writer) (args : list any) : State -> State :=
  emit (EvWrite w (Sprint args)).
Definition Fprintf (w : Writer) (format : string) (args : list any) : State -> State :=
  emit (EvWrite w (Sprintf format args)).
Definition Fprintln (w : Writer) (args : list any) : State -> State :=
  emit (EvWrite w (Sprintsp args +:+ newline)).
Definition os_Exit (code : Z) : State -> State := emit (EvExit code).

(** [getPrefix] returns the prefix used for logging based on the function
    name of the caller and the given terminal color. *)
Definition getPrefix (stack : list Frame) (colorFunc : string -> string) : string :=
  (* skip 2 call frames: {Debugf,Warnf} and getPrefix. *)
  let '(pathQualifiedName, _, _, ok) := callerName 2 (frameOf "getPrefix" :: stack) in
  if negb ok then ""
  else
    let pkgName := getPkgName pathQualifiedName in
    let prefix := colorFunc (pkgName +:+ ":") +:+ " " in
    prefix.

(** --- [ debug ] --- *)

Definition Debug (caller : list Frame) (args : list any) (st : State) : State :=
  let stack := frameOf "Debug" :: caller in
  if skip stack LevelDebug (activeLevel st) then st
  else
    let prefix := getPrefix stack MagentaBold in
    let st := Fprint (debugOutput st) [anyString prefix] st in
    let st := Fprint (debugOutput st) args st in
    Fprintln (debugOutput st) [] st.

Definition Debugf (caller : list Frame) (format : string) (args : list any) (st : State) : State :=
  let stack := frameOf "Debugf" :: caller in
  if skip stack LevelDebug (activeLevel st) then st
  else
    let prefix := getPrefix stack MagentaBold in
    let st := Fprint (debugOutput st) [anyString prefix] st in
    let st := Fprintf (debugOutput st) format args st in
    Fprintln (debugOutput st) [] st.

Definition Debugln (caller : list Frame) (args : list any) (st : State) : State :=
  let stack := frameOf "Debugln" :: caller in
  if skip stack LevelDebug (activeLevel st) then st
  else
    let prefix := getPrefix stack MagentaBold in
    let st := Fprint (debugOutput st) [anyString prefix] st in
    Fprintln (debugOutput st) args st.

(** --- [ info ] --- *)

Definition Info (caller : list Frame) (args : list any) (st : State) : State :=
  let stack := frameOf "Info" :: caller in
  if skip stack LevelInfo (activeLevel st) then st
  else
    let prefix := getPrefix stack CyanBold in
    let st := Fprint (infoOutput st) [anyString prefix] st in
    let st := Fprint (infoOutput st) args st in
    Fprintln (infoOutput st) [] st.

Definition Infof (caller : list Frame) (format : string) (args : list any) (st : State) : State :=
  let stack := frameOf "Infof" :: caller in
  if skip stack LevelInfo (activeLevel st) then st
  else
    let prefix := getPrefix stack CyanBold in
    let st := Fprint (infoOutput st) [anyString prefix] st in
    let st := Fprintf (infoOutput st) format args st in
    Fprintln (infoOutput st) [] st.

Definition Infoln (caller : list Frame) (args : list any) (st : State) : State :=
  let stack := frameOf "Infoln" :: caller in
  if skip stack LevelInfo (activeLevel st) then st
  else
    let prefix := getPrefix stack CyanBold in
    let st := Fprint (infoOutput st) [anyString prefix] st in
    Fprintln (infoOutput st) args st.

(** --- [ warning ] --- *)

Definition Warn (caller : list Frame) (args : list any) (st : State) : State :=
  let stack := frameOf "Warn" :: caller in
  if skip stack LevelWarn (activeLevel st) then st
  else
    let prefix := getPrefix stack RedBold in
    let prefix := prefix +:+ getFileLine stack in
    let st := Fprint (warnOutput st) [anyString prefix] st in
    let st := Fprint (warnOutput st) args st in
    Fprintln (warnOutput st) [] st.

Definition Warnf (caller : list Frame) (format : string) (args : list any) (st : State) : State :=
  let stack := frameOf "Warnf" :: caller in
  if skip stack LevelWarn (activeLevel st) then st
  else
    let prefix := getPrefix stack RedBold in
    let prefix := prefix +:+ getFileLine stack in
    let st := Fprint (warnOutput st) [anyString prefix] st in
    let st := Fprintf (warnOutput st) format args st in
    Fprintln (warnOutput st) [] st.

Definition Warnln (caller : list Frame) (args : list any) (st : State) : State :=
  let stack := frameOf "Warnln" :: caller in
  if skip stack LevelWarn (activeLevel st) then st
  else
    let prefix := getPrefix stack RedBold in
    let prefix := prefix +:+ getFileLine stack in
    let st := Fprint (warnOutput st) [anyString prefix] st in
    Fprintln (warnOutput st) args st.

(** --- [ error ] --- *)

Definition Fatal (caller : list Frame) (args : list any) (st : State) : State :=
  let stack := frameOf "Fatal" :: caller in
  if skip stack LevelError (activeLevel st) then st
  else
    let prefix := getPrefix stack RedBold in
    let prefix := prefix +:+ getFileLine stack in
    let st := Fprint (errorOutput st) [anyString prefix] st in
    let st := Fprint (errorOutput st) args st in
    let st := Fprintln (errorOutput st) [] st in
    os_Exit 1 st.

Definition Fatalf (caller : list Frame) (format : string) (args : list any) (st : State) : State :=
  let stack := frameOf "Fatalf" :: caller in
  if skip stack LevelError (activeLevel st) then st
  else
    let prefix := getPrefix stack RedBold in
    let prefix := prefix +:+ getFileLine stack in
    let st := Fprint (errorOutput st) [anyString prefix] st in
    let st := Fprintf (errorOutput st) format args st in
    let st := Fprintln (errorOutput st) [] st in
    os_Exit 1 st.

Definition Fatalln (caller : list Frame) (args : list any) (st : State) : State :=
  let stack := frameOf "Fatalln" :: caller in
  if skip stack LevelError (activeLevel st) then st
  else
    let prefix := getPrefix stack RedBold in
    let prefix := prefix +:+ getFileLine stack in
    let st := Fprint (errorOutput st) [anyString prefix] st in
    let st := Fprintln (errorOutput st) args st in
    os_Exit 1 st.

End Emitter.
End Clog.

(** ** Revision [src/unnamed/part_001] *)

Module Part001.

Record State := mkState {
  (** [activeLevel] specifies the active log level at package and function
      granularity. *)
  activeLevel : gmap string Level;
  (** [mainPrefixName] specifies the prefix name used for the 'main'
      package. *)
  mainPrefixName : string;
  debugOutput : Writer;
  debugUsePrefix : bool;
  infoOutput : Writer;
  infoUsePrefix : bool;
  warnOutput : Writer;
  warnUsePrefix : bool;
  errorOutput : Writer;
  errorUsePrefix : bool;
  (** the events of the process so far, oldest first *)
  events : list Event
}.

(** The state a process starts in. *)
Definition init : State :=
  mkState ∅ "" Stderr true Stderr true Stderr true Stderr true [].

Definition SetPathLevel (path : string) (level : Level) (st : State) : State :=
  mkState (<[path := level]> (activeLevel st)) (mainPrefixName st)
    (debugOutput st) (debugUsePrefix st) (infoOutput st) (infoUsePrefix st)
    (warnOutput st) (warnUsePrefix st) (errorOutput st) (errorUsePrefix st)
    (events st).

(** The loop of [PathLevel]; one unit of [fuel] lets it run one iteration,
    and [None] is a loop that is still running when the fuel is spent. *)
Fixpoint PathLevel_loop (fuel : nat) (path : string)
    (activeLevel : gmap string Level) : option (Level * bool) :=
  match fuel with
  | O => None
  | S fuel =>
      match activeLevel !! path with
      | Some level => Some (level, true)
      | None =>
          (* check if path level is specified for parent directory. *)
          let dir := Dir path in
          if (len dir =? 0) || String.eqb dir path then Some (0, false)
          else PathLevel_loop fuel dir activeLevel
      end
  end.

(** Iterations that the loop of [PathLevel] never exceeds
    (lemma [PathLevel_loop_fuel]). *)
Definition ascents (path : string) : nat := S (S (String.length path)).

(** [PathLevel] returns the current log level of the given path at package or
    function granularity (or a parent directory thereof), and a boolean
    indicating whether the log level was set. *)
Definition PathLevel (path : string) (activeLevel : gmap string Level) : Level * bool :=
  match PathLevel_loop (ascents path) path activeLevel with
  | Some r => r
  | None => (0, false)
  end.

(** [skip] reports whether to skip log output of the given log level for the
    package path and function path of the caller. *)
Definition skip (stack : list Frame) (cur : Level)
    (activeLevel : gmap string Level) : bool :=
  let '(pkgPath, funcPath) := getQualifiedPaths (frameOf "skip" :: stack) in
  let '(funcLevel, ok) := PathLevel funcPath activeLevel in
  if ok then funcLevel >? cur
  else
    let '(pkgLevel, ok) := PathLevel pkgPath activeLevel in
    if ok then pkgLevel >? cur
    else false.

(** [SetMainPrefixName] sets the prefix name used for the 'main' package. *)
Definition SetMainPrefixName (name : string) (st : State) : State :=
  mkState (activeLevel st) name
    (debugOutput st) (debugUsePrefix st) (infoOutput st) (infoUsePrefix st)
    (warnOutput st) (warnUsePrefix st) (errorOutput st) (errorUsePrefix st)
    (events st).

Definition SetDebugOutput (w : Writer) (st : State) : State :=
  mkState (activeLevel st) (mainPrefixName st)
    w (debugUsePrefix st) (infoOutput st) (infoUsePrefix st) (warnOutput st) (warnUsePrefix st) (errorOutput st) (errorUsePrefix st)
    (events st).
Definition SetDebugPrefix (usePrefix : bool) (st : State) : State :=
  mkState (activeLevel st) (mainPrefixName st)
    (debugOutput st) usePrefix (infoOutput st) (infoUsePrefix st) (warnOutput st) (warnUsePrefix st) (errorOutput st) (errorUsePrefix st)
    (events st).

Definition SetInfoOutput (w : Writer) (st : State) : State :=
  mkState (activeLevel st) (mainPrefixName st)
    (debugOutput st) (debugUsePrefix st) w (infoUsePrefix st) (warnOutput st) (warnUsePrefix st) (errorOutput st) (errorUsePrefix st)
    (events st).
Definition SetInfoPrefix (usePrefix : bool) (st : State) : State :=
  mkState (activeLevel st) (mainPrefixName st)
    (debugOutput st) (debugUsePrefix st) (infoOutput st) usePrefix (warnOutput st) (warnUsePrefix st) (errorOutput st) (errorUsePrefix st)
    (events st).

Definition SetWarnOutput (w : Writer) (st : State) : State :=
  mkState (activeLevel st) (mainPrefixName st)
    (debugOutput st) (debugUsePrefix st) (infoOutput st) (infoUsePrefix st) w (warnUsePrefix st) (errorOutput st) (errorUsePrefix st)
    (events st).
Definition SetWarnPrefix (usePrefix : bool) (st : State) : State :=
  mkState (activeLevel st) (mainPrefixName st)
    (debugOutput st) (debugUsePrefix st) (infoOutput st) (infoUsePrefix st) (warnOutput st) usePrefix (errorOutput st) (errorUsePrefix st)
    (events st).

Definition SetErrorOutput (w : Writer) (st : State) : State :=
  mkState (activeLevel st) (mainPrefixName st)
    (debugOutput st) (debugUsePrefix st) (infoOutput st) (infoUsePrefix st) (warnOutput st) (warnUsePrefix st) w (errorUsePrefix st)
    (events st).
Definition SetErrorPrefix (usePrefix : bool) (st : State) : State :=
  mkState (activeLevel st) (mainPrefixName st)
    (debugOutput st) (debugUsePrefix st) (infoOutput st) (infoUsePrefix st) (warnOutput st) (warnUsePrefix st) (errorOutput st) usePrefix
    (events st).

Definition emit (e : Event) (st : State) : State :=
  mkState (activeLevel st) (mainPrefixName st)
    (debugOutput st) (debugUsePrefix st) (infoOutput st) (infoUsePrefix st)
    (warnOutput st) (warnUsePrefix st) (errorOutput st) (errorUsePrefix st)
    (events st ++ [e]).

(** [getPkgName] returns the package name of the path-qualified function
    name. *)
Definition getPkgName (name : string) (mainPrefixName : string) : string :=
  let name := pkgNameOf name in
  if String.eqb name "main" && (0 <? len mainPrefixName) then mainPrefixName
  else name.

Section Emitter.
Context `{Externals}.

Definition Fprint (w : Writer) (args : list any) : State -> State :=
  emit (EvWrite w (Sprint args)).
Definition Fprintf (w : Writer) (format : string) (args : list any) : State -> State :=
  emit (EvWrite w (Sprintf format args)).
Definition Fprintln (w : Writer) (args : list any) : State -> State :=
  emit (EvWrite w (Sprintsp args +:+ newline)).
Definition os_Exit (code : Z) : State -> State := emit (EvExit code).

(** [getPrefix] returns the prefix used for logging based on the function
    name of the caller and the given terminal color. *)
Definition getPrefix (stack : list Frame) (colorFunc : string -> string)
    (st : State) : string :=
  (* skip 2 call frames: {Debugf,Warnf} and getPrefix. *)
  let '(pathQualifiedName, _, _, ok) := callerName 2 (frameOf "getPrefix" :: stack) in
  if negb ok then ""
  else
    let pkgName := getPkgName pathQualifiedName (mainPrefixName st) in
    let prefix := colorFunc (pkgName +:+ ":") +:+ " " in
    prefix.

(** --- [ debug ] --- *)

Definition Debug (caller : list Frame) (args : list any) (st : State) : State :=
  let stack := frameOf "Debug" :: caller in
  if skip stack LevelDebug (activeLevel st) then st
  else
    let st :=
      if debugUsePrefix st then
        let prefix := getPrefix stack MagentaBold st in
        Fprint (debugOutput st) [anyString prefix] st
      else st in
    let st := Fprint (debugOutput st) args st in
    Fprintln (debugOutput st) [] st.

Definition Debugf (caller : list Frame) (format : string) (args : list any) (st : State) : State :=
  let stack := frameOf "Debugf" :: caller in
  if skip stack LevelDebug (activeLevel st) then st
  else
    let st :=
      if debugUsePrefix st then
        let prefix := getPrefix stack MagentaBold st in
        Fprint (debugOutput st) [anyString prefix] st
      else st in
    let st := Fprintf (debugOutput st) format args st in
    Fprintln (debugOutput st) [] st.

Definition Debugln (caller : list Frame) (args : list any) (st : State) : State :=
  let stack := frameOf "Debugln" :: caller in
  if skip stack LevelDebug (activeLevel st) then st
  else
    let st :=
      if debugUsePrefix st then
        let prefix := getPrefix stack MagentaBold st in
        Fprint (debugOutput st) [anyString prefix] st
      else st in
    Fprintln (debugOutput st) args st.

(** --- [ info ] --- *)

Definition Info (caller : list Frame) (args : list any) (st : State) : State :=
  let stack := frameOf "Info" :: caller in
  if skip stack LevelInfo (activeLevel st) then st
  else
    let st :=
      if infoUsePrefix st then
        let prefix := getPrefix stack CyanBold st in
        Fprint (infoOutput st) [anyString prefix] st
      else st in
    let st := Fprint (infoOutput st) args st in
    Fprintln (infoOutput st) [] st.

Definition Infof (caller : list Frame) (format : string) (args : list any) (st : State) : State :=
  let stack := frameOf "Infof" :: caller in
  if skip stack LevelInfo (activeLevel st) then st
  else
    let st :=
      if infoUsePrefix st then
        let prefix := getPrefix stack CyanBold st in
        Fprint (infoOutput st) [anyString prefix] st
      else st in
    let st := Fprintf (infoOutput st) format args st in
    Fprintln (infoOutput st) [] st.

Definition Infoln (caller : list Frame) (args : list any) (st : State) : State :=
  let stack := frameOf "Infoln" :: caller in
  if skip stack LevelInfo (activeLevel st) then st
  else
    let st :=
      if infoUsePrefix st then
        let prefix := getPrefix stack CyanBold st in
        Fprint (infoOutput st) [anyString prefix] st
      else st in
    Fprintln (infoOutput st) args st.

(** --- [ warning ] --- *)

Definition Warn (caller : list Frame) (args : list any) (st : State) : State :=
  let stack := frameOf "Warn" :: caller in
  if skip stack LevelWarn (activeLevel st) then st
  else
    let st :=
      if warnUsePrefix st then
        let prefix := getPrefix stack RedBold st in
        let prefix := prefix +:+ getFileLine stack in
        Fprint (warnOutput st) [anyString prefix] st
      else st in
    let st := Fprint (warnOutput st) args st in
    Fprintln (warnOutput st) [] st.

Definition Warnf (caller : list Frame) (format : string) (args : list any) (st : State) : State :=
  let stack := frameOf "Warnf" :: caller in
  if skip stack LevelWarn (activeLevel st) then st
  else
    let st :=
      if warnUsePrefix st then
        let prefix := getPrefix stack RedBold st in
        let prefix := prefix +:+ getFileLine stack in
        Fprint (warnOutput st) [anyString prefix] st
      else st in
    let st := Fprintf (warnOutput st) format args st in
    Fprintln (warnOutput st) [] st.

Definition Warnln (caller : list Frame) (args : list any) (st : State) : State :=
  let stack := frameOf "Warnln" :: caller in
  if skip stack LevelWarn (activeLevel st) then st
  else
    let st :=
      if warnUsePrefix st then
        let prefix := getPrefix stack RedBold st in
        let prefix := prefix +:+ getFileLine stack in
        Fprint (warnOutput st) [anyString prefix] st
      else st in
    Fprintln (warnOutput st) args st.

(** --- [ error ] --- *)

Definition Fatal (caller : list Frame) (args : list any) (st : State) : State :=
  let stack := frameOf "Fatal" :: caller in
  if skip stack LevelError (activeLevel st) then st
  else
    let st :=
      if errorUsePrefix st then
        let prefix := getPrefix stack RedBold st in
        let prefix := prefix +:+ getFileLine stack in
        Fprint (errorOutput st) [anyString prefix] st
      else st in
    let st := Fprint (errorOutput st) args st in
    let st := Fprintln (errorOutput st) [] st in
    os_Exit 1 st.

Definition Fatalf (caller : list Frame) (format : string) (args : list any) (st : State) : State :=
  let stack := frameOf "Fatalf" :: caller in
  if skip stack LevelError (activeLevel st) then st
  else
    let st :=
      if errorUsePrefix st then
        let prefix := getPrefix stack RedBold st in
        let prefix := prefix +:+ getFileLine stack in
        Fprint (errorOutput st) [anyString prefix] st
      else st in
    let st := Fprintf (errorOutput st) format args st in
    let st := Fprintln (errorOutput st) [] st in
    os_Exit 1 st.

Definition Fatalln (caller : list Frame) (args : list any) (st : State) : State :=
  let stack := frameOf "Fatalln" :: caller in
  if skip stack LevelError (activeLevel st) then st
  else
    let st :=
      if errorUsePrefix st then
        let prefix := getPrefix stack RedBold st in
        let prefix := prefix +:+ getFileLine stack in
        Fprint (errorOutput st) [anyString prefix] st
      else st in
    let st := Fprintln (errorOutput st) args st in
    os_Exit 1 st.

End Emitter.
End Part001.

(** * Definitions of the specification *)

(** ** Slicing and searching *)

(** The text of a path up to and including its last slash, and the final
    slash-delimited segment after it. *)
Fixpoint splitLast (s : string) : string * string :=
  match s with
  | EmptyString => ("", "")
  | String c t =>
      let '(d, f) := splitLast t in
      match d with
      | EmptyString => if Ascii.eqb c "/" then (String c "", t) else ("", s)
      | _ => (String c d, f)
      end
  end.

(** The text before the first period; all of it when it has none. *)
Fixpoint untilPeriod (s : string) : string :=
  match s with
  | EmptyString => ""
  | String c t => if Ascii.eqb c "." then "" else String c (untilPeriod t)
  end.

Fixpoint hasPeriod (s : string) : bool :=
  match s with
  | EmptyString => false
  | String c t => Ascii.eqb c "." || hasPeriod t
  end.

(** The index [getPkgPath] cuts at. *)
Definition getPkgPath_end (name : string) : Z :=
  let pos := LastIndex name "/" in
  let end_ := if negb (pos =? -1) then pos + 1 else 0 in
  let pos := Index (slice_from name end_) "." in
  if negb (pos =? -1) then end_ + pos else end_.

Fixpoint hasSlash (s : string) : bool :=
  match s with
  | EmptyString => false
  | String c t => Ascii.eqb c "/" || hasSlash t
  end.

(** The paths of the ascent: [iterDir n path] is [Dir] applied [n] times. *)
Fixpoint iterDir (n : nat) (path : string) : string :=
  match n with
  | O => path
  | S n => iterDir n (Dir path)
  end.

(** ** The hierarchical lookup of [Part001] *)

(** [n] is the first step of the ascent from [path] with an entry, and [t]
    is the threshold there. *)
Definition firstMatch (m : gmap string Level) (path : string) (n : nat) (t : Level) : Prop :=
  m !! iterDir n path = Some t /\ forall k, (k < n)%nat -> m !! iterDir k path = None.

(** ** The call site *)

(** The function stack inspection resolves for a call of an entry point:
    the first frame of the caller's stack, when [runtime.Callers] reports it
    and [runtime.FuncForPC] knows it. *)
Definition resolved (caller : list Frame) : option Func :=
  match caller with
  | Some fn :: _ => Some fn
  | _ => None
  end.

(** The package path [P] and the function path [F] of a call site. *)
Definition callPaths (caller : list Frame) : string * string :=
  match resolved caller with
  | Some fn => (getPkgPath (Name fn), Name fn)
  | None => ("", "")
  end.

(** A function-level match decides alone. *)
Definition shortCircuits
    (PathLevel : string -> gmap string Level -> Level * bool)
    (skip : list Frame -> Level -> gmap string Level -> bool) : Prop :=
  forall (e : Frame) (caller : list Frame) (s : Level) (m : gmap string Level),
    let '(P, F) := callPaths caller in
    match PathLevel F m with
    | (fl, true) => skip (e :: caller) s m = (fl >? s)
    | (_, false) =>
        skip (e :: caller) s m =
          match PathLevel P m with
          | (pl, true) => pl >? s
          | (_, false) => false
          end
    end.

(** A registry and a call site on which revision [Part000] differs: the
    function has the debug threshold, its package the error threshold. *)
Definition mainRegistry : gmap string Level :=
  <["main.main" := LevelDebug]> (<["main" := LevelError]> ∅).
Definition mainCaller : list Frame :=
  [Some {| Name := "main.main"; File := "main.go"; Line := 7 |}].

(** A caller in package "app/worker" under the warn threshold: a warning
    passes, and so does a fatal error. *)
Definition workerRegistry : gmap string Level := <["app/worker" := LevelWarn]> ∅.
Definition workerStack : list Frame :=
  [frameOf "Warn"; Some {| Name := "app/worker.Process"; File := "worker.go"; Line := 12 |}].

(** A path-qualified function name: its final slash-delimited segment has a
    period, the one between the package name and the function. *)
Definition pathQualified (F : string) : Prop := hasPeriod (snd (splitLast F)) = true.

(** [F] with everything from the first period in its final slash-delimited
    segment onward removed. *)
Definition stripFuncSuffix (F : string) : string :=
  let '(d, f) := splitLast F in d +:+ untilPeriod f.

(** The package name a qualified name derives: its last slash-delimited
    segment truncated at its first period. *)
Definition derivedPkgName (F : string) : string := untilPeriod (snd (splitLast F)).

(** The end-to-end scenario of the design: the warn threshold on "app/worker"
    governs a call from "app/worker/pool.Run", two steps down. *)
Definition poolFunc : Func :=
  {| Name := "app/worker/pool.Run"; File := "pool.go"; Line := 30 |}.
Definition workerFunc : Func :=
  {| Name := "app/worker"; File := "worker.go"; Line := 12 |}.

(** ** The emitter *)

(** The four tiers and the three calling conventions of the twelve entry
    points. *)
Inductive Tier := TDebug | TInfo | TWarn | TError.
Inductive Convention := Direct | Template | ByLine.

Definition severity (t : Tier) : Level :=
  match t with
  | TDebug => LevelDebug
  | TInfo => LevelInfo
  | TWarn => LevelWarn
  | TError => LevelError
  end.

Definition style `{Externals} (t : Tier) : string -> string :=
  match t with
  | TDebug => MagentaBold
  | TInfo => CyanBold
  | TWarn => RedBold
  | TError => RedBold
  end.

(** The file:line tag of the warn and error tiers. *)
Definition fileLineTag `{Externals} (fn : Func) : string :=
  WhiteBold ((File fn +:+ ":" +:+ itoa (Line fn)) +:+ ":") +:+ " ".

(** The body of the message and the writes that carry it and the trailing
    newline: [Fprintln] writes both at once. *)
Definition body `{Externals} (c : Convention) (format : string) (args : list any) : string :=
  match c with
  | Direct => Sprint args
  | Template => Sprintf format args
  | ByLine => Sprintsp args
  end.

Definition bodyWrites `{Externals} (c : Convention) (format : string) (args : list any) : list string :=
  match c with
  | ByLine => [body c format args +:+ newline]
  | _ => [body c format args; newline]
  end.

(** What terminates the process after the writes. *)
Definition exitOf (t : Tier) : list Event :=
  match t with
  | TError => [EvExit 1]
  | _ => []
  end.

(** The statuses the process has passed to [os.Exit]. *)
Fixpoint exitCodes (evs : list Event) : list Z :=
  match evs with
  | [] => []
  | EvExit code :: evs => code :: exitCodes evs
  | EvWrite _ _ :: evs => exitCodes evs
  end.

(** *** [src/unnamed/part_001] *)

Definition call001 `{Externals} (t : Tier) (c : Convention) (caller : list Frame)
    (format : string) (args : list any) (st : Part001.State) : Part001.State :=
  match t, c with
  | TDebug, Direct => Part001.Debug caller args st
  | TDebug, Template => Part001.Debugf caller format args st
  | TDebug, ByLine => Part001.Debugln caller args st
  | TInfo, Direct => Part001.Info caller args st
  | TInfo, Template => Part001.Infof caller format args st
  | TInfo, ByLine => Part001.Infoln caller args st
  | TWarn, Direct => Part001.Warn caller args st
  | TWarn, Template => Part001.Warnf caller format args st
  | TWarn, ByLine => Part001.Warnln caller args st
  | TError, Direct => Part001.Fatal caller args st
  | TError, Template => Part001.Fatalf caller format args st
  | TError, ByLine => Part001.Fatalln caller args st
  end.

Definition sink001 (t : Tier) (st : Part001.State) : Writer :=
  match t with
  | TDebug => Part001.debugOutput st
  | TInfo => Part001.infoOutput st
  | TWarn => Part001.warnOutput st
  | TError => Part001.errorOutput st
  end.

Definition usePrefix001 (t : Tier) (st : Part001.State) : bool :=
  match t with
  | TDebug => Part001.debugUsePrefix st
  | TInfo => Part001.infoUsePrefix st
  | TWarn => Part001.warnUsePrefix st
  | TError => Part001.errorUsePrefix st
  end.

(** Everything of the state but the events. *)
Definition config001 (st : Part001.State) :=
  (Part001.activeLevel st, Part001.mainPrefixName st,
   (Part001.debugOutput st, Part001.infoOutput st,
    Part001.warnOutput st, Part001.errorOutput st),
   (Part001.debugUsePrefix st, Part001.infoUsePrefix st,
    Part001.warnUsePrefix st, Part001.errorUsePrefix st)).

(** The prefix of a message: the styled package name and, for the warn and
    error tiers, the file:line tag; nothing when the caller does not
    resolve. *)
Definition tag001 `{Externals} (t : Tier) (caller : list Frame) (st : Part001.State) : string :=
  match resolved caller with
  | None => ""
  | Some fn =>
      let pkg :=
        style t (Part001.getPkgName (Name fn) (Part001.mainPrefixName st) +:+ ":") +:+ " " in
      match t with
      | TWarn | TError => pkg +:+ fileLineTag fn
      | _ => pkg
      end
  end.

(** The override that applies to a call site: the threshold the registry
    resolves for the function path, else the one it resolves for the package
    path. *)
Definition override001 (caller : list Frame) (m : gmap string Level) : option Level :=
  let '(P, F) := callPaths caller in
  match Part001.PathLevel F m with
  | (fl, true) => Some fl
  | (_, false) =>
      match Part001.PathLevel P m with
      | (pl, true) => Some pl
      | (_, false) => None
      end
  end.

(** The write sequence of one message on the sink of its tier. *)
Definition sequence001 `{Externals} (t : Tier) (c : Convention) (caller : list Frame)
    (format : string) (args : list any) (st : Part001.State) : list Event :=
  map (EvWrite (sink001 t st))
    ((if usePrefix001 t st then [tag001 t caller st] else []) ++ bodyWrites c format args).

(** *** [src/clog.go] *)

Definition callClog `{Externals} (t : Tier) (c : Convention) (caller : list Frame)
    (format : string) (args : list any) (st : Clog.State) : Clog.State :=
  match t, c with
  | TDebug, Direct => Clog.Debug caller args st
  | TDebug, Template => Clog.Debugf caller format args st
  | TDebug, ByLine => Clog.Debugln caller args st
  | TInfo, Direct => Clog.Info caller args st
  | TInfo, Template => Clog.Infof caller format args st
  | TInfo, ByLine => Clog.Infoln caller args st
  | TWarn, Direct => Clog.Warn caller args st
  | TWarn, Template => Clog.Warnf caller format args st
  | TWarn, ByLine => Clog.Warnln caller args st
  | TError, Direct => Clog.Fatal caller args st
  | TError, Template => Clog.Fatalf caller format args st
  | TError, ByLine => Clog.Fatalln caller args st
  end.

Definition sinkClog (t : Tier) (st : Clog.State) : Writer :=
  match t with
  | TDebug => Clog.debugOutput st
  | TInfo => Clog.infoOutput st
  | TWarn => Clog.warnOutput st
  | TError => Clog.errorOutput st
  end.

Definition tagClog `{Externals} (t : Tier) (caller : list Frame) : string :=
  match resolved caller with
  | None => ""
  | Some fn =>
      let pkg := style t (Clog.getPkgName (Name fn) +:+ ":") +:+ " " in
      match t with
      | TWarn | TError => pkg +:+ fileLineTag fn
      | _ => pkg
      end
  end.

(** Everything of the state but the events. *)
Definition configClog (st : Clog.State) :=
  (Clog.activeLevel st,
   (Clog.debugOutput st, Clog.infoOutput st, Clog.warnOutput st, Clog.errorOutput st)).

(** The override that applies to a call site: the threshold set for the
    function path, else the one set for the package path. *)
Definition overrideClog (caller : list Frame) (m : gmap string Level) : option Level :=
  let '(P, F) := callPaths caller in
  match Clog.PathLevel F m with
  | (fl, true) => Some fl
  | (_, false) =>
      match Clog.PathLevel P m with
      | (pl, true) => Some pl
      | (_, false) => None
      end
  end.

(** The write sequence of one message on the sink of its tier. *)
Definition sequenceClog `{Externals} (t : Tier) (c : Convention) (caller : list Frame)
    (format : string) (args : list any) (st : Clog.State) : list Event :=
  map (EvWrite (sinkClog t st)) (tagClog t caller :: bodyWrites c format args).

(** Name of the entry point, for its frame. *)
Definition entryName (t : Tier) (c : Convention) : string :=
  match t, c with
  | TDebug, Direct => "Debug" | TDebug, Template => "Debugf" | TDebug, ByLine => "Debugln"
  | TInfo, Direct => "Info" | TInfo, Template => "Infof" | TInfo, ByLine => "Infoln"
  | TWarn, Direct => "Warn" | TWarn, Template => "Warnf" | TWarn, ByLine => "Warnln"
  | TError, Direct => "Fatal" | TError, Template => "Fatalf" | TError, ByLine => "Fatalln"
  end.

(** An instance to run the entry points on: the values are strings and are
    printed as they are, a template is printed as it is with its operands
    after it, and the styles leave the text alone. *)
Definition plainExternals : Externals :=
  {| any := string;
     Sprint := String.concat "";
     Sprintf := fun format args => format +:+ String.concat "" args;
     Sprintsp := String.concat " ";
     anyString := fun s => s;
     Sprint_string := fun s => eq_refl;
     Sprintsp_nil := eq_refl;
     MagentaBold := fun s => s;
     CyanBold := fun s => s;
     RedBold := fun s => s;
     WhiteBold := fun s => s |}.

(** The scenario of the design: with the warn threshold on "app/worker", a
    debug call from "app/worker.Process" writes nothing and a warn call
    writes the prefix, with the file:line tag, the body and the newline. *)
Definition workerCaller : list Frame :=
  [Some {| Name := "app/worker.Process"; File := "worker.go"; Line := 12 |}].
Definition workerState : Part001.State :=
  Part001.SetPathLevel "app/worker" LevelWarn Part001.init.
Definition workerClog : Clog.State :=
  Clog.SetPathLevel "app/worker" LevelWarn Clog.init.

(** A fatal error from "main.main" with no override installed, and a
    suppressed one under a threshold above the error level. *)
Definition quietState : Part001.State := Part001.SetPathLevel "main" 9 Part001.init.

(** A state whose registry holds the error threshold for ".", and a caller
    whose program counter [runtime.FuncForPC] does not know. *)
Definition dotState : Part001.State := Part001.SetPathLevel "." LevelError Part001.init.
Definition unknownCaller : list Frame := [None].

(** ** Further definitions: names, roots, the entry points of [Part000] *)

(** The text after the first period; nothing when there is none. *)
Fixpoint afterPeriod (s : string) : string :=
  match s with
  | EmptyString => ""
  | String c t => if Ascii.eqb c "." then t else afterPeriod t
  end.

(** A rooted path begins with the separator. *)
Definition isRooted (path : string) : bool :=
  match path with
  | String c _ => isPathSeparator c
  | EmptyString => false
  end.

(** The entry points of [src/unnamed/part_000]; the direct convention takes
    the one operand [arg]. *)
Definition call000 `{Externals} (t : Tier) (c : Convention) (caller : list Frame)
    (format : string) (arg : any) (args : list any) (st : Part000.State) : Part000.State :=
  match t, c with
  | TDebug, Direct => Part000.Debug caller arg st
  | TDebug, Template => Part000.Debugf caller format args st
  | TDebug, ByLine => Part000.Debugln caller args st
  | TInfo, Direct => Part000.Info caller arg st
  | TInfo, Template => Part000.Infof caller format args st
  | TInfo, ByLine => Part000.Infoln caller args st
  | TWarn, Direct => Part000.Warn caller arg st
  | TWarn, Template => Part000.Warnf caller format args st
  | TWarn, ByLine => Part000.Warnln caller args st
  | TError, Direct => Part000.Fatal caller arg st
  | TError, Template => Part000.Fatalf caller format args st
  | TError, ByLine => Part000.Fatalln caller args st
  end.

(** The operands of a call of [Part000]. *)
Definition operands000 `{Externals} (c : Convention) (arg : any) (args : list any) : list any :=
  match c with
  | Direct => [arg]
  | _ => args
  end.

(** The write sequence of one message of [Part000], on standard error. *)
Definition sequence000 `{Externals} (t : Tier) (c : Convention) (caller : list Frame)
    (format : string) (arg : any) (args : list any) : list Event :=
  map (EvWrite Stderr) (tagClog t caller :: bodyWrites c format (operands000 c arg args)).

Definition tierEqb (t t' : Tier) : bool :=
  match t, t' with
  | TDebug, TDebug | TInfo, TInfo | TWarn, TWarn | TError, TError => true
  | _, _ => false
  end.


Definition setPrefix001 (t : Tier) (usePrefix : bool) (st : Part001.State) : Part001.State :=
  match t with
  | TDebug => Part001.SetDebugPrefix usePrefix st
  | TInfo => Part001.SetInfoPrefix usePrefix st
  | TWarn => Part001.SetWarnPrefix usePrefix st
  | TError => Part001.SetErrorPrefix usePrefix st
  end.


(** The bytes the events write, in order, whatever the sink. *)
Fixpoint textOf (evs : list Event) : string :=
  match evs with
  | [] => ""
  | EvWrite _ p :: evs => p +:+ textOf evs
  | EvExit _ :: evs => textOf evs
  end.

(** Every threshold of the registry is at most [s]. *)
Definition thresholdsWithin (m : gmap string Level) (s : Level) : Prop :=
  forall k v, m !! k = Some v -> v <= s.

(** An event a call of tier [t] may add when [w] is the sink of the tier: a
    write on [w], or the exit with status 1 of the error tier. *)
Definition onSink (w : Writer) (t : Tier) (ev : Event) : Prop :=
  match ev with
  | EvWrite w' _ => w' = w
  | EvExit code => code = 1 /\ t = TError
  end.

(** * Properties *)

(** ** Searching and slicing *)

Lemma Index_range s c : -1 <= Index s c < len s.
Proof.
  unfold len. induction s as [|x t IH]; simpl; [lia|].
  destruct (Ascii.eqb x c); [lia|].
  destruct (Z.eqb_spec (Index t c) (-1)); lia.
Qed.

Lemma LastIndex_range s c : -1 <= LastIndex s c < len s.
Proof.
  unfold len. induction s as [|x t IH]; simpl; [lia|].
  destruct (Z.eqb_spec (LastIndex t c) (-1)); [destruct (Ascii.eqb x c)|]; lia.
Qed.

Lemma take_add a b s : take (a + b) s = take a s +:+ take b (drop a s).
Proof.
  revert s. induction a as [|a IH]; intros s; simpl.
  - now destruct s, b.
  - destruct s as [|c t]; simpl; [now destruct b|]. now rewrite IH.
Qed.

Lemma app_length_str s t : String.length (s +:+ t) = (String.length s + String.length t)%nat.
Proof. induction s as [|c s IH]; simpl; [reflexivity | now rewrite IH]. Qed.

(** [LastIndex] finds the cut of [splitLast]. *)
Lemma splitLast_app s : fst (splitLast s) +:+ snd (splitLast s) = s.
Proof.
  induction s as [|c t IH]; simpl; [reflexivity|].
  destruct (splitLast t) as [d f]; simpl in *.
  destruct d as [|c' d'].
  - simpl in IH; subst f. now destruct (Ascii.eqb c "/").
  - simpl. now rewrite <- IH.
Qed.

Lemma LastIndex_splitLast s :
  LastIndex s "/" + 1 = len (fst (splitLast s)).
Proof.
  unfold len. induction s as [|c t IH]; simpl; [reflexivity|].
  destruct (splitLast t) as [d f]; simpl in *.
  destruct d as [|c' d']; simpl in *.
  - replace (LastIndex t "/") with (-1) by lia. simpl.
    destruct (Ascii.eqb c "/"); reflexivity.
  - destruct (Z.eqb_spec (LastIndex t "/") (-1)); lia.
Qed.

Lemma take_app_exact s t : take (String.length s) (s +:+ t) = s.
Proof. induction s as [|c s IH]; simpl; [now destruct t | now rewrite IH]. Qed.

Lemma drop_app_exact s t : drop (String.length s) (s +:+ t) = t.
Proof. induction s as [|c s IH]; simpl; [now destruct t | exact IH]. Qed.

Lemma slice_to_LastIndex s :
  slice_to s (LastIndex s "/" + 1) = fst (splitLast s).
Proof.
  unfold slice_to. rewrite LastIndex_splitLast. unfold len. rewrite Nat2Z.id.
  pose proof (splitLast_app s) as Hs.
  destruct (splitLast s) as [d f]; simpl in *. subst s. apply take_app_exact.
Qed.

Lemma slice_from_LastIndex s :
  slice_from s (LastIndex s "/" + 1) = snd (splitLast s).
Proof.
  unfold slice_from. rewrite LastIndex_splitLast. unfold len. rewrite Nat2Z.id.
  pose proof (splitLast_app s) as Hs.
  destruct (splitLast s) as [d f]; simpl in *. subst s. apply drop_app_exact.
Qed.

Lemma Index_hasPeriod s : (Index s "." =? -1) = negb (hasPeriod s).
Proof.
  induction s as [|c t IH]; simpl; [reflexivity|].
  destruct (Ascii.eqb c "."); simpl; [reflexivity|].
  rewrite <- IH. pose proof (Index_range t ".").
  destruct (Z.eqb_spec (Index t ".") (-1)); [reflexivity|].
  apply Z.eqb_neq. lia.
Qed.

Lemma slice_to_Index s :
  hasPeriod s = true -> slice_to s (Index s ".") = untilPeriod s.
Proof.
  unfold slice_to. induction s as [|c t IH]; simpl; [discriminate|].
  destruct (Ascii.eqb c "."); simpl; [reflexivity|]. intros Hp.
  pose proof (Index_hasPeriod t) as Hi. rewrite Hp in Hi. simpl in Hi. rewrite Hi.
  pose proof (Index_range t "."). apply Z.eqb_neq in Hi.
  replace (Z.to_nat (Index t "." + 1)) with (S (Z.to_nat (Index t "."))) by lia.
  simpl. now rewrite IH.
Qed.

Lemma untilPeriod_none s : hasPeriod s = false -> untilPeriod s = s.
Proof.
  induction s as [|c t IH]; simpl; [reflexivity|].
  destruct (Ascii.eqb c "."); simpl; [discriminate|]. intros Hp. now rewrite IH.
Qed.

(** ** [getPkgPath] and [getPkgName] *)

Lemma getPkgPath_first_end name :
  (if negb (LastIndex name "/" =? -1) then LastIndex name "/" + 1 else 0)
  = LastIndex name "/" + 1.
Proof. destruct (Z.eqb_spec (LastIndex name "/") (-1)) as [->|]; reflexivity. Qed.

(** No slice of [getPkgPath] is out of range. *)
Lemma getPkgPath_in_range name :
  getPkgPath name = slice_to name (getPkgPath_end name)
  /\ 0 <= LastIndex name "/" + 1 <= len name
  /\ 0 <= getPkgPath_end name <= len name.
Proof.
  split; [reflexivity|].
  pose proof (LastIndex_range name "/") as Hl. split; [lia|].
  unfold getPkgPath_end. rewrite getPkgPath_first_end.
  rewrite slice_from_LastIndex.
  pose proof (Index_range (snd (splitLast name)) ".") as Hi.
  pose proof (f_equal String.length (splitLast_app name)) as Hs.
  rewrite app_length_str in Hs.
  pose proof (LastIndex_splitLast name) as Hd. unfold len in *.
  destruct (Z.eqb_spec (Index (snd (splitLast name)) ".") (-1)); simpl; lia.
Qed.

(** What [getPkgPath] returns, for every string. *)
Lemma getPkgPath_splitLast name :
  getPkgPath name =
    let '(d, f) := splitLast name in
    if hasPeriod f then d +:+ untilPeriod f else d.
Proof.
  unfold getPkgPath. rewrite getPkgPath_first_end, slice_from_LastIndex.
  pose proof (slice_to_LastIndex name) as Hd.
  pose proof (LastIndex_splitLast name) as Hn.
  pose proof (splitLast_app name) as Hs.
  destruct (splitLast name) as [d f]; simpl in *.
  rewrite Index_hasPeriod. destruct (hasPeriod f) eqn:Hp; simpl; [|exact Hd].
  pose proof (Index_range f ".") as Hi.
  pose proof (Index_hasPeriod f) as Hx. rewrite Hp in Hx. apply Z.eqb_neq in Hx.
  unfold slice_to, len in *.
  replace (Z.to_nat (LastIndex name "/" + 1 + Index f "."))
    with (String.length d + Z.to_nat (Index f "."))%nat by lia.
  rewrite take_add. rewrite <- Hs. rewrite take_app_exact, drop_app_exact.
  f_equal. now apply slice_to_Index.
Qed.

(** What [getPkgName] derives, for every string. *)
Lemma pkgNameOf_splitLast name :
  pkgNameOf name = untilPeriod (snd (splitLast name)).
Proof.
  unfold pkgNameOf.
  assert ((if negb (LastIndex name "/" =? -1)
           then slice_from name (LastIndex name "/" + 1) else name)
          = snd (splitLast name)) as ->.
  { destruct (Z.eqb_spec (LastIndex name "/") (-1)) as [E|E]; simpl.
    - rewrite <- slice_from_LastIndex, E. reflexivity.
    - apply slice_from_LastIndex. }
  rewrite Index_hasPeriod. destruct (hasPeriod (snd (splitLast name))) eqn:Hp; simpl.
  - now apply slice_to_Index.
  - symmetry. now apply untilPeriod_none.
Qed.

(** The examples in the comments of [getPkgPath], [getPkgName] and
    [getFuncName]. *)
Lemma names_documented :
  map getPkgPath ["github.com/mewpkg/clog.getPrefix"; "github.com/mewpkg/clog.Debugf"; "main.main"]
    = ["github.com/mewpkg/clog"; "github.com/mewpkg/clog"; "main"]
  /\ map pkgNameOf ["github.com/mewpkg/clog.getPrefix"; "github.com/mewpkg/clog.Debugf"; "main.main"]
    = ["clog"; "clog"; "main"]
  /\ map getFuncName ["github.com/mewpkg/clog.getPrefix"; "github.com/mewpkg/clog.Debugf"; "main.main"]
    = ["getPrefix"; "Debugf"; "main"].
Proof. repeat apply conj; reflexivity. Qed.

(** No slice of [getPkgName] is out of range. *)
Lemma getPkgName_in_range name :
  0 <= LastIndex name "/" + 1 <= len name
  /\ -1 <= Index (snd (splitLast name)) "." < len (snd (splitLast name)).
Proof.
  pose proof (LastIndex_range name "/"). split; [lia|]. apply Index_range.
Qed.

(** ** [Clean] and [Dir] *)

(** The embedding of [Clean] and [Dir] on the cases of the tests of
    [path/filepath]. *)
Lemma Clean_library_cases :
  map Clean
    ["abc"; "abc/def"; "a/b/c"; "."; ".."; "../.."; "../../abc"; "/abc"; "/"; "";
     "abc/"; "abc/def/"; "a/b/c/"; "./"; "../"; "../../"; "/abc/";
     "abc//def//ghi"; "abc//"; "abc/./def"; "/./abc/def"; "abc/.";
     "abc/def/ghi/../jkl"; "abc/def/../ghi/../jkl"; "abc/def/.."; "abc/def/../..";
     "/abc/def/../.."; "abc/def/../../.."; "/abc/def/../../..";
     "abc/def/../../../ghi/jkl/../../../mno"; "/../abc"; "a/../b:/../../c";
     "abc/./../def"; "abc//./../def"; "abc/../../././../def";
     "//abc"; "///abc"; "//abc//"]
  = ["abc"; "abc/def"; "a/b/c"; "."; ".."; "../.."; "../../abc"; "/abc"; "/"; ".";
     "abc"; "abc/def"; "a/b/c"; "."; ".."; "../.."; "/abc";
     "abc/def/ghi"; "abc"; "abc/def"; "/abc/def"; "abc";
     "abc/def/jkl"; "abc/jkl"; "abc"; ".";
     "/"; ".."; "/";
     "../../mno"; "/abc"; "../c";
     "def"; "def"; "../../def";
     "/abc"; "/abc"; "/abc"].
Proof. vm_compute. reflexivity. Qed.

Lemma Dir_library_cases :
  map Dir [""; "."; "/."; "/"; "/foo"; "x/"; "abc"; "abc/def"; "a/b/.x"; "a/b/c."; "a/b/c.x"]
  = ["."; "."; "/"; "/"; "/"; "x"; "."; "abc"; "a/b"; "a/b"; "a/b"].
Proof. vm_compute. reflexivity. Qed.

Lemma atElemEnd_app_sep rest : atElemEnd (rest +:+ "/") = atElemEnd rest.
Proof. now destruct rest. Qed.

(** A separator at the end of the input leaves the output of the loop as it
    is. *)
Lemma cleanLoop_app_sep n :
  forall rest, (String.length rest <= n)%nat ->
  forall rooted copying out dotdot,
    cleanLoop rooted copying (rest +:+ "/") out dotdot
    = cleanLoop rooted copying rest out dotdot.
Proof.
  induction n as [|n IH]; intros rest Hl rooted copying out dotdot.
  - destruct rest; [|simpl in Hl; lia]. simpl. now destruct copying.
  - destruct rest as [|c rest']; [simpl; now destruct copying|].
    simpl in Hl. simpl. rewrite atElemEnd_app_sep.
    rewrite !(IH rest') by lia.
    destruct rest' as [|c' rest'']; simpl.
    + rewrite andb_false_r. reflexivity.
    + simpl in Hl. rewrite atElemEnd_app_sep. rewrite !(IH rest'') by lia.
      reflexivity.
Qed.

Lemma backtrack_length out dotdot :
  (length (backtrack out dotdot) <= length out)%nat.
Proof.
  induction out as [|c out IH]; simpl; [lia|].
  destruct ((dotdot <? length out)%nat && negb (isPathSeparator c)); lia.
Qed.

(** The loop never writes more bytes than it has read: with [k] bytes read
    and [fresh] telling that the last of them was a separator (or that
    nothing was read yet), the output stays within [k] once the rest is
    read. *)
Lemma cleanLoop_length n :
  forall rest, (String.length rest <= n)%nat ->
  forall (rooted copying fresh : bool) (out : list ascii) (dotdot k : nat),
    ((if rooted then 1 else 0) <= k)%nat ->
    (length out <= k)%nat ->
    (copying = false ->
     if fresh
     then (length out <= (if rooted then 1 else 0) \/ S (length out) <= k)%nat
     else atElemEnd rest = true) ->
    (length (cleanLoop rooted copying rest out dotdot) <= k + String.length rest)%nat.
Proof.
  induction n as [|n IH]; intros rest Hl rooted copying fresh out dotdot k Hb Hk Hf.
  - destruct rest; [|simpl in Hl; lia]. simpl. lia.
  - destruct rest as [|c rest']; [simpl; lia|]. simpl in Hl.
    assert (String.length rest' <= n)%nat as Hl' by lia.
    simpl String.length. replace (k + S (String.length rest'))%nat
      with (S k + String.length rest')%nat by lia.
    simpl cleanLoop. destruct copying.
    { destruct (isPathSeparator c).
      - apply (IH rest' Hl' rooted false true); [lia|lia|]. intros _. lia.
      - apply (IH rest' Hl' rooted true true); simpl; [lia|lia|discriminate]. }
    specialize (Hf eq_refl).
    destruct (isPathSeparator c) eqn:Hsep.
    { apply (IH rest' Hl' rooted false true); [lia|lia|]. intros _. lia. }
    assert (fresh = true) as ->.
    { destruct fresh; [reflexivity|]. simpl in Hf. congruence. }
    destruct (Ascii.eqb c "." && atElemEnd rest') eqn:Hdot.
    { apply andb_true_iff in Hdot as [_ He].
      apply (IH rest' Hl' rooted false false); [lia|lia|]. intros _. exact He. }
    assert (length (cleanLoop rooted true rest'
              (c :: (if rooted && negb (length out =? 1)%nat
                        || negb rooted && negb (length out =? 0)%nat
                     then "/"%char :: out else out)) dotdot)
            <= S k + String.length rest')%nat as Helem.
    { apply (IH rest' Hl' rooted true true); [lia| |discriminate].
      destruct rooted; simpl;
        destruct (Nat.eqb_spec (length out) 1); destruct (Nat.eqb_spec (length out) 0);
        simpl; lia. }
    destruct rest' as [|c' rest'']; [exact Helem|].
    destruct (Ascii.eqb c "." && Ascii.eqb c' "." && atElemEnd rest'') eqn:Hdd;
      [|exact Helem].
    apply andb_true_iff in Hdd as [_ He]. simpl in Hl, Hl'.
    assert (String.length rest'' <= n)%nat as Hl'' by lia. simpl String.length.
    replace (S k + S (String.length rest''))%nat
      with (S (S k) + String.length rest'')%nat by lia.
    destruct (Nat.ltb_spec dotdot (length out)).
    { pose proof (backtrack_length out dotdot).
      apply (IH rest'' Hl'' rooted false false); [lia|lia|]. intros _. exact He. }
    destruct rooted; simpl.
    { apply (IH rest'' Hl'' true false false out dotdot (S (S k)));
        [lia|lia|]. intros _. exact He. }
    refine (IH rest'' Hl'' false false false _ _ (S (S k)) _ _ _);
      [lia| |intros _; exact He].
    destruct (Nat.ltb_spec 0 (length out)); simpl; lia.
Qed.

Lemma length_string_of_list_ascii l :
  String.length (string_of_list_ascii l) = length l.
Proof. induction l; simpl; congruence. Qed.

(** [Clean] never lengthens a path that is not empty. *)
Lemma Clean_length path :
  path <> "" -> (String.length (Clean path) <= String.length path)%nat.
Proof.
  destruct path as [|c rest]; [congruence|]. intros _. unfold Clean.
  set (out := if isPathSeparator c then _ else _).
  assert (length out <= S (String.length rest))%nat as Ho.
  { subst out. destruct (isPathSeparator c).
    - apply (cleanLoop_length _ rest (le_n _) true false true ["/"%char] 1%nat 1%nat);
        simpl; [lia|lia|intros _; lia].
    - apply (cleanLoop_length _ (String c rest) (le_n _) false false true [] 0%nat 0%nat);
        simpl; [lia|lia|intros _; lia]. }
  clearbody out. simpl String.length.
  destruct (Nat.eqb_spec (length out) 0); simpl; [lia|].
  now rewrite length_string_of_list_ascii, length_rev.
Qed.

Lemma Clean_app_sep path : path <> "" -> Clean (path +:+ "/") = Clean path.
Proof.
  destruct path as [|c rest]; [congruence|]. intros _. unfold Clean. simpl.
  rewrite atElemEnd_app_sep.
  rewrite !(cleanLoop_app_sep _ rest (le_n _)).
  destruct rest as [|c' rest'']; simpl.
  - now rewrite andb_false_r.
  - now rewrite atElemEnd_app_sep, !(cleanLoop_app_sep _ rest'' (le_n _)).
Qed.

Lemma Clean_nonempty path : Clean path <> "".
Proof.
  destruct path as [|c rest]; [discriminate|]. unfold Clean.
  set (out := if isPathSeparator c then _ else _). clearbody out.
  destruct (Nat.eqb_spec (length out) 0) as [|Hn]; [discriminate|].
  intros E. apply Hn. apply (f_equal String.length) in E.
  now rewrite length_string_of_list_ascii, length_rev in E.
Qed.

(** The text [splitLast] cuts off in front is empty or ends in the slash. *)
Lemma splitLast_fst s :
  fst (splitLast s) = "" \/ exists pre, fst (splitLast s) = pre +:+ "/".
Proof.
  induction s as [|c t IH]; simpl; [now left|].
  destruct (splitLast t) as [d f]; simpl in *.
  destruct d as [|c' d'].
  - destruct (Ascii.eqb_spec c "/"); [subst; right; now exists ""|now left].
  - right. destruct IH as [|[pre E]]; [discriminate|].
    exists (String c pre). simpl. now rewrite E.
Qed.

Lemma splitLast_noslash s : hasSlash s = false -> splitLast s = ("", s).
Proof.
  induction s as [|c t IH]; simpl; [reflexivity|].
  destruct (Ascii.eqb c "/"); simpl; [discriminate|]. intros Ht. now rewrite IH.
Qed.

Lemma splitLast_child p seg :
  hasSlash seg = false -> splitLast (p +:+ "/" +:+ seg) = (p +:+ "/", seg).
Proof.
  intros Hs. change ("/" +:+ seg) with (String "/" seg).
  induction p as [|c p IH]; simpl.
  - now rewrite (splitLast_noslash seg Hs).
  - rewrite IH. now destruct p.
Qed.

(** [Dir] on a path without a slash, on a path whose only slash in front of
    the last element is the leading one, and on the others. *)
Lemma Dir_noslash path : fst (splitLast path) = "" -> Dir path = ".".
Proof. intros E. unfold Dir. now rewrite slice_to_LastIndex, E. Qed.

Lemma Dir_root path : fst (splitLast path) = "/" -> Dir path = "/".
Proof. intros E. unfold Dir. now rewrite slice_to_LastIndex, E. Qed.

Lemma Dir_parent path pre :
  fst (splitLast path) = pre +:+ "/" -> pre <> "" -> Dir path = Clean pre.
Proof.
  intros E Hp. unfold Dir. rewrite slice_to_LastIndex, E. now apply Clean_app_sep.
Qed.

(** The slice of [Dir] is in range. *)
Lemma Dir_in_range path : 0 <= LastIndex path "/" + 1 <= len path.
Proof. pose proof (LastIndex_range path "/"). lia. Qed.

(** A path with a slash, other than the root, has a shorter [Dir]. *)
Lemma Dir_shorter path :
  fst (splitLast path) <> "" -> path <> "/" ->
  (String.length (Dir path) < String.length path)%nat.
Proof.
  intros Hd Hr. pose proof (splitLast_app path) as Hs.
  destruct (splitLast_fst path) as [|[pre E]]; [contradiction|].
  apply (f_equal String.length) in Hs. rewrite E, !app_length_str in Hs.
  simpl in Hs. destruct pre as [|c pre'].
  - rewrite (Dir_root path E). simpl in *.
    destruct (snd (splitLast path)) eqn:Ef; simpl in Hs; [|lia].
    exfalso. apply Hr. rewrite <- (splitLast_app path), E, Ef. reflexivity.
  - rewrite (Dir_parent path _ E) by discriminate.
    pose proof (Clean_length (String c pre')) as Hc. simpl in *.
    specialize (Hc ltac:(discriminate)). lia.
Qed.

(** Every child of a directory has the cleaned directory as its [Dir]. *)
Lemma Dir_child p seg :
  p <> "" -> hasSlash seg = false -> Dir (p +:+ "/" +:+ seg) = Clean p.
Proof.
  intros Hp Hs. apply Dir_parent; [|exact Hp].
  now rewrite (splitLast_child p seg Hs).
Qed.

Lemma iterDir_fixed n path : Dir path = path -> iterDir n path = path.
Proof. intros E. induction n as [|n IH]; simpl; [reflexivity|]. now rewrite E. Qed.

(** ** The hierarchical lookup of [src/unnamed/part_001] *)

Lemma Dir_nonempty path : Dir path <> "".
Proof. apply Clean_nonempty. Qed.

(** The test that ends the loop of [PathLevel] holds at the fixed points of
    [Dir] only. *)
Lemma loop_break path :
  (len (Dir path) =? 0) || String.eqb (Dir path) path = true <-> Dir path = path.
Proof.
  rewrite orb_true_iff, String.eqb_eq, Z.eqb_eq. split; [|tauto].
  intros [Hl|E]; [|exact E]. exfalso. apply (Dir_nonempty path).
  unfold len in Hl. destruct (Dir path); [reflexivity | simpl in Hl; lia].
Qed.

Lemma PathLevel_loop_mono fuel fuel' path m r :
  Part001.PathLevel_loop fuel path m = Some r -> (fuel <= fuel')%nat ->
  Part001.PathLevel_loop fuel' path m = Some r.
Proof.
  revert fuel' path. induction fuel as [|fuel IH]; intros fuel' path; simpl; [discriminate|].
  intros Hr Hle. destruct fuel' as [|fuel']; [lia|]. simpl.
  destruct (m !! path); [exact Hr|].
  destruct ((len (Dir path) =? 0) || String.eqb (Dir path) path); [exact Hr|].
  apply IH; [exact Hr | lia].
Qed.

(** The loop returns within [ascents path] iterations. *)
Lemma PathLevel_loop_fuel n :
  forall path m fuel, (String.length path <= n)%nat ->
    (Part001.ascents path <= fuel)%nat ->
    exists r, Part001.PathLevel_loop fuel path m = Some r.
Proof.
  unfold Part001.ascents.
  induction n as [|n IH]; intros path m fuel Hn Hf;
    (destruct fuel as [|fuel]; [lia|]); simpl;
    (destruct (m !! path); [eauto|]);
    (destruct ((len (Dir path) =? 0) || String.eqb (Dir path) path) eqn:Hb; [eauto|]);
    (assert (Dir path <> path) as Hne
       by (intros E; apply loop_break in E; congruence));
    (destruct (string_dec (fst (splitLast path)) "") as [Hd|Hd];
     [ rewrite (Dir_noslash path Hd);
       destruct fuel as [|fuel]; [lia|]; simpl;
       destruct (m !! "."); eauto
     | ]).
  - destruct path; [now destruct Hd | simpl in Hn; lia].
  - assert (path <> "/") as Hr by (intros ->; now apply Hne).
    pose proof (Dir_shorter path Hd Hr). apply IH; lia.
Qed.

Lemma PathLevel_loop_PathLevel path m fuel :
  (Part001.ascents path <= fuel)%nat ->
  Part001.PathLevel_loop fuel path m = Some (Part001.PathLevel path m).
Proof.
  intros Hf. unfold Part001.PathLevel.
  destruct (PathLevel_loop_fuel _ path m (Part001.ascents path) (le_n _) (le_n _)) as [r Hr].
  rewrite Hr. now apply (PathLevel_loop_mono _ _ _ _ _ Hr).
Qed.

(** What the loop returns: the threshold of the first entry on the ascent, or
    not found when the ascent has none. *)
Lemma PathLevel_loop_sound fuel :
  forall path m r, Part001.PathLevel_loop fuel path m = Some r ->
    match r with
    | (t, true) => exists n, firstMatch m path n t
    | (t, false) => t = 0 /\ forall n, m !! iterDir n path = None
    end.
Proof.
  induction fuel as [|fuel IH]; intros path m r; simpl; [discriminate|].
  destruct (m !! path) as [level|] eqn:E.
  - intros [= <-]. exists 0%nat. split; [exact E | intros k Hk; lia].
  - destruct ((len (Dir path) =? 0) || String.eqb (Dir path) path) eqn:Hb.
    + intros [= <-]. split; [reflexivity|]. intros n.
      apply loop_break in Hb. now rewrite iterDir_fixed.
    + intros Hr. specialize (IH _ _ _ Hr). destruct r as [t [|]].
      * destruct IH as [n [Hn Hk]]. exists (S n). split; [exact Hn|].
        intros [|k] Hlt; [exact E | apply Hk; lia].
      * destruct IH as [-> Hk]. split; [reflexivity|]. intros [|n]; [exact E | apply Hk].
Qed.

Lemma PathLevel_sound path m :
  match Part001.PathLevel path m with
  | (t, true) => exists n, firstMatch m path n t
  | (t, false) => t = 0 /\ forall n, m !! iterDir n path = None
  end.
Proof.
  apply (PathLevel_loop_sound (Part001.ascents path)).
  apply PathLevel_loop_PathLevel. lia.
Qed.

Lemma firstMatch_unique m path n t n' t' :
  firstMatch m path n t -> firstMatch m path n' t' -> n = n' /\ t = t'.
Proof.
  intros [Hn Hk] [Hn' Hk'].
  assert (n = n') as <-.
  { destruct (Nat.lt_trichotomy n n') as [Hlt|[E|Hlt]]; [|exact E|].
    - rewrite (Hk' _ Hlt) in Hn. discriminate.
    - rewrite (Hk _ Hlt) in Hn'. discriminate. }
  split; congruence.
Qed.

Lemma PathLevel_found path m n t :
  firstMatch m path n t -> Part001.PathLevel path m = (t, true).
Proof.
  intros Hm. pose proof (PathLevel_sound path m) as Hs.
  destruct (Part001.PathLevel path m) as [t' [|]].
  - destruct Hs as [n' Hm']. now destruct (firstMatch_unique _ _ _ _ _ _ Hm Hm') as [_ ->].
  - destruct Hs as [_ Hnone]. destruct Hm as [Hn _]. rewrite Hnone in Hn. discriminate.
Qed.

Lemma PathLevel_not_found path m :
  (forall n, m !! iterDir n path = None) -> Part001.PathLevel path m = (0, false).
Proof.
  intros Hnone. pose proof (PathLevel_sound path m) as Hs.
  destruct (Part001.PathLevel path m) as [t' [|]].
  - destruct Hs as [n' [Hn _]]. rewrite Hnone in Hn. discriminate.
  - now destruct Hs as [-> _].
Qed.

(** Every ascent reaches a fixed point of [Dir]: the root ["/"] of a rooted
    path, ["."] for the others. *)
Lemma ascent_reaches_root n :
  forall path, (String.length path <= n)%nat ->
    exists k, (k <= S (String.length path))%nat
      /\ Dir (iterDir k path) = iterDir k path.
Proof.
  induction n as [|n IH]; intros path Hn;
    (destruct (string_dec (Dir path) path) as [E|Hne]; [exists 0%nat; split; [lia|exact E]|]);
    (destruct (string_dec (fst (splitLast path)) "") as [Hd|Hd];
     [exists 1%nat; split; [lia|]; simpl; now rewrite (Dir_noslash path Hd)|]).
  - destruct path; [now destruct Hd | simpl in Hn; lia].
  - assert (path <> "/") as Hr by (intros ->; now apply Hne).
    pose proof (Dir_shorter path Hd Hr) as Hs.
    destruct (IH (Dir path) ltac:(lia)) as [k [Hk Hfix]].
    exists (S k). split; [lia | exact Hfix].
Qed.

(** ** The call site and [skip] *)

(** The skip counts reach the caller of the entry point, from [skip] and
    from the entry point itself. *)
Lemma callerName_skip e caller :
  callerName 3 (frameOf "getQualifiedPaths" :: frameOf "skip" :: e :: caller)
  = match resolved caller with
    | Some fn => (Name fn, File fn, Line fn, true)
    | None => ("", "", 0, false)
    end.
Proof. destruct caller as [|[fn|] rest]; reflexivity. Qed.

Lemma callerName_entry h e caller :
  callerName 2 (h :: e :: caller)
  = match resolved caller with
    | Some fn => (Name fn, File fn, Line fn, true)
    | None => ("", "", 0, false)
    end.
Proof. destruct caller as [|[fn|] rest]; reflexivity. Qed.

Lemma getQualifiedPaths_caller e caller :
  getQualifiedPaths (frameOf "skip" :: e :: caller) = callPaths caller.
Proof.
  unfold getQualifiedPaths, callPaths. rewrite callerName_skip.
  now destruct (resolved caller).
Qed.

(** The three revisions of [skip] by the paths of the call site. *)
Lemma Part000_skip_paths e caller cur m :
  Part000.skip (e :: caller) cur m =
    let '(P, F) := callPaths caller in
    match m !! F with
    | Some fl => (fl >? cur) || match m !! P with Some pl => pl >? cur | None => false end
    | None => match m !! P with Some pl => pl >? cur | None => false end
    end.
Proof.
  unfold Part000.skip, Part000.PathLevel. rewrite getQualifiedPaths_caller.
  destruct (callPaths caller) as [P F].
  destruct (m !! F) as [fl|]; simpl; destruct (m !! P) as [pl|]; simpl;
    repeat match goal with |- context [?a >? ?b] => destruct (a >? b) end; reflexivity.
Qed.

Lemma Clog_skip_paths e caller cur m :
  Clog.skip (e :: caller) cur m =
    let '(P, F) := callPaths caller in
    match m !! F with
    | Some fl => fl >? cur
    | None => match m !! P with Some pl => pl >? cur | None => false end
    end.
Proof.
  unfold Clog.skip, Clog.PathLevel. rewrite getQualifiedPaths_caller.
  destruct (callPaths caller) as [P F].
  destruct (m !! F) as [fl|]; simpl; [reflexivity|]. now destruct (m !! P).
Qed.

Lemma Part001_skip_paths e caller cur m :
  Part001.skip (e :: caller) cur m =
    let '(P, F) := callPaths caller in
    match Part001.PathLevel F m with
    | (fl, true) => fl >? cur
    | (_, false) =>
        match Part001.PathLevel P m with
        | (pl, true) => pl >? cur
        | (_, false) => false
        end
    end.
Proof.
  unfold Part001.skip. rewrite getQualifiedPaths_caller.
  destruct (callPaths caller) as [P F].
  destruct (Part001.PathLevel F m) as [fl [|]]; [reflexivity|].
  now destruct (Part001.PathLevel P m) as [pl [|]].
Qed.

(** ** The registry and the names: C1, C9, C6, C7, C8, C10, C2 *)

(** C1, as stated, fails on revision [src/unnamed/part_000]: the function
    path "main.main" has the threshold [LevelDebug], which permits an info
    message, and [skip] still suppresses it for the threshold [LevelError] of
    package "main". *)
Lemma skip_part000_consults_package :
  callPaths mainCaller = ("main", "main.main")
  /\ Part000.PathLevel "main.main" mainRegistry = (LevelDebug, true)
  /\ (LevelDebug >? LevelInfo) = false
  /\ Part000.skip (frameOf "Info" :: mainCaller) LevelInfo mainRegistry = true
  /\ ~ shortCircuits Part000.PathLevel Part000.skip.
Proof.
  assert (Part000.skip (frameOf "Info" :: mainCaller) LevelInfo mainRegistry = true)
    as Hskip by (vm_compute; reflexivity).
  split; [vm_compute; reflexivity|].
  split; [vm_compute; reflexivity|].
  split; [reflexivity|].
  split; [exact Hskip|].
  intros Hsc. specialize (Hsc (frameOf "Info") mainCaller LevelInfo mainRegistry).
  change (callPaths mainCaller) with ("main", "main.main") in Hsc.
  change (Part000.PathLevel "main.main" mainRegistry) with (LevelDebug, true) in Hsc.
  rewrite Hskip in Hsc. discriminate.
Qed.

(** C1 (amended): in [src/clog.go] and in [src/unnamed/part_001], when the
    registry yields a match for the function path [F] of the caller, [skip]
    suppresses iff that threshold is greater than the severity, whatever the
    registry holds for the package path [P]; [P] decides only when [F] has no
    match.  In [src/unnamed/part_000] a function-level threshold that does
    not suppress leaves the decision to the package-level one: [skip]
    suppresses iff one of the two thresholds is greater than the severity. *)
Theorem skip_function_level_first :
  shortCircuits Clog.PathLevel Clog.skip
  /\ shortCircuits Part001.PathLevel Part001.skip
  /\ forall (e : Frame) (caller : list Frame) (s : Level) (m : gmap string Level),
       Part000.skip (e :: caller) s m =
         let '(P, F) := callPaths caller in
         match Part000.PathLevel F m, Part000.PathLevel P m with
         | (fl, okF), (pl, okP) => okF && (fl >? s) || okP && (pl >? s)
         end.
Proof.
  split; [|split].
  - intros e caller s m. rewrite Clog_skip_paths. unfold Clog.PathLevel.
    destruct (callPaths caller) as [P F].
    destruct (m !! F); [reflexivity|]. now destruct (m !! P).
  - intros e caller s m. rewrite Part001_skip_paths.
    destruct (callPaths caller) as [P F].
    now destruct (Part001.PathLevel F m) as [fl [|]].
  - intros e caller s m. rewrite Part000_skip_paths. unfold Part000.PathLevel.
    destruct (callPaths caller) as [P F].
    destruct (m !! F); destruct (m !! P); simpl; rewrite ?orb_false_r; reflexivity.
Qed.

(** C9: suppression is antitone in the severity of the message.  For a fixed
    registry and a fixed stack, a message that [skip] lets through at
    severity [s] is let through at every severity [s' >= s], in each of the
    three revisions. *)
Theorem skip_antitone (stack : list Frame) (m : gmap string Level) (s s' : Level)
    (Hle : s <= s') :
  (Part000.skip stack s m = false -> Part000.skip stack s' m = false)
  /\ (Clog.skip stack s m = false -> Clog.skip stack s' m = false)
  /\ (Part001.skip stack s m = false -> Part001.skip stack s' m = false).
Proof.
  assert (forall t : Z, (t >? s) = false -> (t >? s') = false) as Hgt.
  { intros t. rewrite !Z.gtb_ltb, !Z.ltb_ge. lia. }
  unfold Part000.skip, Clog.skip, Part001.skip.
  destruct (getQualifiedPaths (frameOf "skip" :: stack)) as [P F].
  split; [|split].
  - destruct (Part000.PathLevel F m) as [fl [|]];
      destruct (Part000.PathLevel P m) as [pl [|]]; simpl;
      try (destruct (fl >? s) eqn:E1; [discriminate|]; rewrite (Hgt _ E1));
      try (destruct (pl >? s) eqn:E2; [discriminate|]; rewrite (Hgt _ E2));
      reflexivity.
  - destruct (Clog.PathLevel F m) as [fl [|]]; [apply Hgt|].
    destruct (Clog.PathLevel P m) as [pl [|]]; [apply Hgt|reflexivity].
  - destruct (Part001.PathLevel F m) as [fl [|]]; [apply Hgt|].
    destruct (Part001.PathLevel P m) as [pl [|]]; [apply Hgt|reflexivity].
Qed.

Lemma skip_antitone_witness :
  Part000.skip workerStack LevelWarn workerRegistry = false
  /\ Clog.skip workerStack LevelWarn workerRegistry = false
  /\ Part001.skip workerStack LevelWarn workerRegistry = false
  /\ Part000.skip workerStack LevelError workerRegistry = false
  /\ Clog.skip workerStack LevelError workerRegistry = false
  /\ Part001.skip workerStack LevelError workerRegistry = false.
Proof.
  assert (LevelWarn <= LevelError) as Hle by (unfold LevelWarn, LevelError; lia).
  destruct (skip_antitone workerStack workerRegistry LevelWarn LevelError Hle)
    as [H0 [H1 H2]].
  assert (Part000.skip workerStack LevelWarn workerRegistry = false) as E0
    by (vm_compute; reflexivity).
  assert (Clog.skip workerStack LevelWarn workerRegistry = false) as E1
    by (vm_compute; reflexivity).
  assert (Part001.skip workerStack LevelWarn workerRegistry = false) as E2
    by (vm_compute; reflexivity).
  exact (conj E0 (conj E1 (conj E2 (conj (H0 E0) (conj (H1 E1) (H2 E2)))))).
Defined.

(** An exact entry is found without an ascent. *)
Lemma PathLevel_exact path m t :
  m !! path = Some t -> Part001.PathLevel path m = (t, true).
Proof.
  intros E. apply (PathLevel_found path m 0). split; [exact E | intros k Hk; lia].
Qed.

(** C6: [SetPathLevel(p, l)] followed by [PathLevel(p)] yields [(l, true)];
    setting the same path and level twice leaves the state that setting it
    once leaves; of two levels set for one path the last is the one
    [PathLevel] yields, and the state is the one the last write alone leaves.
    [SetPathLevel] is total and takes every string as a path, the empty one
    included.  This holds for the exact lookup of [src/clog.go] and
    [src/unnamed/part_000] and for the hierarchical lookup of
    [src/unnamed/part_001]. *)
Theorem SetPathLevel_PathLevel (p : string) (l l1 l2 : Level)
    (m : gmap string Level) (c : Clog.State) (st : Part001.State) :
  (Part000.PathLevel p (Part000.SetPathLevel p l m) = (l, true)
   /\ Part000.SetPathLevel p l (Part000.SetPathLevel p l m) = Part000.SetPathLevel p l m
   /\ Part000.PathLevel p (Part000.SetPathLevel p l2 (Part000.SetPathLevel p l1 m)) = (l2, true)
   /\ Part000.SetPathLevel p l2 (Part000.SetPathLevel p l1 m) = Part000.SetPathLevel p l2 m)
  /\ (Clog.PathLevel p (Clog.activeLevel (Clog.SetPathLevel p l c)) = (l, true)
      /\ Clog.SetPathLevel p l (Clog.SetPathLevel p l c) = Clog.SetPathLevel p l c
      /\ Clog.PathLevel p (Clog.activeLevel
           (Clog.SetPathLevel p l2 (Clog.SetPathLevel p l1 c))) = (l2, true)
      /\ Clog.SetPathLevel p l2 (Clog.SetPathLevel p l1 c) = Clog.SetPathLevel p l2 c)
  /\ (Part001.PathLevel p (Part001.activeLevel (Part001.SetPathLevel p l st)) = (l, true)
      /\ Part001.SetPathLevel p l (Part001.SetPathLevel p l st) = Part001.SetPathLevel p l st
      /\ Part001.PathLevel p (Part001.activeLevel
           (Part001.SetPathLevel p l2 (Part001.SetPathLevel p l1 st))) = (l2, true)
      /\ Part001.SetPathLevel p l2 (Part001.SetPathLevel p l1 st)
         = Part001.SetPathLevel p l2 st)
  /\ Part001.PathLevel "" (Part001.activeLevel (Part001.SetPathLevel "" l st)) = (l, true).
Proof.
  repeat apply conj.
  - unfold Part000.PathLevel, Part000.SetPathLevel. now rewrite lookup_insert_eq.
  - unfold Part000.SetPathLevel. now rewrite insert_insert_eq.
  - unfold Part000.PathLevel, Part000.SetPathLevel. now rewrite lookup_insert_eq.
  - unfold Part000.SetPathLevel. now rewrite insert_insert_eq.
  - unfold Clog.PathLevel, Clog.SetPathLevel. simpl. now rewrite lookup_insert_eq.
  - unfold Clog.SetPathLevel. simpl. now rewrite insert_insert_eq.
  - unfold Clog.PathLevel, Clog.SetPathLevel. simpl. now rewrite lookup_insert_eq.
  - unfold Clog.SetPathLevel. simpl. now rewrite insert_insert_eq.
  - apply PathLevel_exact. simpl. apply lookup_insert_eq.
  - unfold Part001.SetPathLevel. simpl. now rewrite insert_insert_eq.
  - apply PathLevel_exact. simpl. apply lookup_insert_eq.
  - unfold Part001.SetPathLevel. simpl. now rewrite insert_insert_eq.
  - apply PathLevel_exact. simpl. apply lookup_insert_eq.
Qed.

(** C7: for every path-qualified function name [F], [getPkgPath F] is [F]
    with everything from the first period in the final slash-delimited
    segment onward removed; "github.com/mewpkg/clog.Debugf" yields
    "github.com/mewpkg/clog" and "main.main" yields "main". *)
Theorem getPkgPath_strips_function (F : string) (HF : pathQualified F) :
  getPkgPath F = stripFuncSuffix F
  /\ getPkgPath "github.com/mewpkg/clog.getPrefix" = "github.com/mewpkg/clog"
  /\ getPkgPath "github.com/mewpkg/clog.Debugf" = "github.com/mewpkg/clog"
  /\ getPkgPath "main.main" = "main".
Proof.
  split; [|repeat apply conj; reflexivity].
  rewrite getPkgPath_splitLast. unfold stripFuncSuffix, pathQualified in *.
  destruct (splitLast F) as [d f]. simpl in HF. now rewrite HF.
Qed.

Lemma getPkgPath_strips_function_witness :
  pathQualified "github.com/user/repo/pkg.Func"
  /\ getPkgPath "github.com/user/repo/pkg.Func" = "github.com/user/repo/pkg".
Proof.
  assert (pathQualified "github.com/user/repo/pkg.Func") as HF by reflexivity.
  split; [exact HF|].
  exact (proj1 (getPkgPath_strips_function "github.com/user/repo/pkg.Func" HF)).
Defined.

(** C8: after [SetMainPrefixName n] with a non-empty [n], [getPkgName] of a
    qualified name whose derived package name is "main" is [n]; with no
    override set, or the empty one, or for another derived package name,
    [getPkgName] is the derived package name. *)
Theorem getPkgName_main_prefix (F n : string) (st : Part001.State) :
  (n <> "" -> derivedPkgName F = "main" ->
   Part001.getPkgName F (Part001.mainPrefixName (Part001.SetMainPrefixName n st)) = n)
  /\ (Part001.mainPrefixName st = "" \/ derivedPkgName F <> "main" ->
      Part001.getPkgName F (Part001.mainPrefixName st) = derivedPkgName F)
  /\ Part001.mainPrefixName Part001.init = "".
Proof.
  unfold Part001.getPkgName, derivedPkgName. rewrite pkgNameOf_splitLast.
  split; [|split; [|reflexivity]].
  - intros Hn Hd. simpl. rewrite Hd. simpl.
    destruct n; [congruence|reflexivity].
  - intros [He|Hd].
    + rewrite He. simpl. now rewrite andb_false_r.
    + apply String.eqb_neq in Hd. now rewrite Hd.
Qed.

Lemma getPkgName_main_prefix_witness :
  Part001.getPkgName "main.main"
    (Part001.mainPrefixName (Part001.SetMainPrefixName "app" Part001.init)) = "app"
  /\ Part001.getPkgName "main.main" (Part001.mainPrefixName Part001.init) = "main"
  /\ Part001.getPkgName "github.com/mewpkg/clog.Debugf" "app" = "clog".
Proof.
  split; [|split].
  - apply (proj1 (getPkgName_main_prefix "main.main" "app" Part001.init));
      [apply (bool_decide_unpack _); vm_compute; exact I | reflexivity].
  - apply (proj1 (proj2 (getPkgName_main_prefix "main.main" "app" Part001.init))).
    left. reflexivity.
  - apply (proj1 (proj2 (getPkgName_main_prefix "github.com/mewpkg/clog.Debugf" "x"
             (Part001.SetMainPrefixName "app" Part001.init)))).
    right. apply (bool_decide_unpack _). vm_compute. exact I.
Defined.

(** C10: the hierarchical [PathLevel] terminates on every path, the empty
    string and the paths without a separator included.  The ascent from
    [path] reaches, within [String.length path + 1] steps, a path that is its
    own [Dir], where the loop stops; so the loop returns within
    [ascents path] iterations, whatever the registry holds, and more
    iterations than that change nothing. *)
Theorem PathLevel_terminates (path : string) (m : gmap string Level) (extra : nat) :
  Part001.PathLevel_loop (Part001.ascents path + extra) path m
    = Some (Part001.PathLevel path m)
  /\ (exists k, (k <= S (String.length path))%nat
        /\ Dir (iterDir k path) = iterDir k path
        /\ (len (Dir (iterDir k path)) =? 0)
           || String.eqb (Dir (iterDir k path)) (iterDir k path) = true)
  /\ Part001.PathLevel_loop 2 "" m = Some (Part001.PathLevel "" m)
  /\ Part001.PathLevel_loop 6 "main" m = Some (Part001.PathLevel "main" m).
Proof.
  split; [apply PathLevel_loop_PathLevel; lia|].
  split.
  - destruct (ascent_reaches_root _ path (le_n _)) as [k [Hk Hfix]].
    exists k. split; [exact Hk|]. split; [exact Hfix|]. now apply loop_break.
  - split; apply PathLevel_loop_PathLevel; unfold Part001.ascents; simpl; lia.
Qed.

(** C2: the hierarchical [PathLevel] returns the threshold of [path] when the
    registry has an entry for it; otherwise it ascends with [filepath.Dir],
    which strips the last element of the path, and returns with [true] the
    threshold of the first path of the ascent that has an entry, or
    [(0, false)] when the ascent has none up to its root.  Hence, when [p]
    lies [n] steps up the ascent from [q], [p] has the threshold [t] and no
    path of the ascent before [p] has an entry, [PathLevel] yields the same
    for [q] as for [p], and a call from a function named [q] is suppressed or
    permitted as a call from one named [p] is.  One step up from a path
    [dir/seg] lies [dir], cleaned: "a/b" lies one step up from "a/b/c" and
    from "a/b/c.Func". *)
Theorem PathLevel_hierarchical (m : gmap string Level) (p q : string) (n : nat)
    (t s : Level) (fq fp : Func) (e e' : Frame) (rest rest' : list Frame)
    (Hup : iterDir n q = p)
    (Hset : m !! p = Some t)
    (Hspecific : forall k, (k < n)%nat -> m !! iterDir k q = None)
    (Hq : Name fq = q) (Hp : Name fp = p) :
  (forall path t', m !! path = Some t' -> Part001.PathLevel path m = (t', true))
  /\ (forall path,
        match Part001.PathLevel path m with
        | (t', true) => exists k, firstMatch m path k t'
        | (t', false) => t' = 0 /\ forall k, m !! iterDir k path = None
        end)
  /\ Part001.PathLevel q m = (t, true)
  /\ Part001.PathLevel p m = (t, true)
  /\ Part001.skip (e :: Some fq :: rest) s m = (t >? s)
  /\ Part001.skip (e' :: Some fp :: rest') s m = (t >? s)
  /\ (forall dir seg, dir <> "" -> hasSlash seg = false ->
      iterDir 1 (dir +:+ "/" +:+ seg) = Clean dir)
  /\ Clean "a/b" = "a/b"
  /\ iterDir 1 "a/b/c" = "a/b"
  /\ iterDir 1 "a/b/c.Func" = "a/b".
Proof.
  assert (Part001.PathLevel q m = (t, true)) as Eq.
  { apply (PathLevel_found q m n). split; [now rewrite Hup | exact Hspecific]. }
  assert (Part001.PathLevel p m = (t, true)) as Ep by now apply PathLevel_exact.
  split; [intros path t'; apply PathLevel_exact|].
  split; [intros path; apply PathLevel_sound|].
  split; [exact Eq|]. split; [exact Ep|].
  split; [|split; [|split; [|repeat apply conj; reflexivity]]].
  - rewrite Part001_skip_paths. unfold callPaths. simpl. now rewrite Hq, Eq.
  - rewrite Part001_skip_paths. unfold callPaths. simpl. now rewrite Hp, Ep.
  - intros dir seg Hd Hs. simpl. now apply Dir_child.
Qed.

Lemma PathLevel_hierarchical_witness :
  Part001.PathLevel "app/worker/pool.Run" workerRegistry = (LevelWarn, true)
  /\ Part001.PathLevel "app/worker" workerRegistry = (LevelWarn, true)
  /\ Part001.skip [frameOf "Debug"; Some poolFunc] LevelDebug workerRegistry = true
  /\ Part001.skip [frameOf "Debug"; Some workerFunc] LevelDebug workerRegistry = true
  /\ iterDir 1 "app/worker/pool.Run" = Clean "app/worker".
Proof.
  assert (iterDir 1 "app/worker/pool.Run" = "app/worker") as Hup by reflexivity.
  assert (workerRegistry !! "app/worker" = Some LevelWarn) as Hset
    by (vm_compute; reflexivity).
  assert (forall k, (k < 1)%nat -> workerRegistry !! iterDir k "app/worker/pool.Run" = None)
    as Hspecific.
  { intros k Hk. assert (k = 0%nat) as -> by lia. vm_compute. reflexivity. }
  destruct (PathLevel_hierarchical workerRegistry "app/worker" "app/worker/pool.Run" 1
              LevelWarn LevelDebug poolFunc workerFunc (frameOf "Debug") (frameOf "Debug")
              [] [] Hup Hset Hspecific eq_refl eq_refl)
    as [_ [_ [Eq [Ep [Sq [Sp [Hchild _]]]]]]].
  refine (conj Eq (conj Ep (conj Sq (conj Sp _)))).
  apply (Hchild "app/worker" "pool.Run");
    [apply (bool_decide_unpack _); vm_compute; exact I | reflexivity].
Defined.

(** ** The emitter: C3, C4, C5 *)

Lemma getFileLine_caller `{Externals} e caller :
  getFileLine (e :: caller)
  = match resolved caller with Some fn => fileLineTag fn | None => "" end.
Proof.
  unfold getFileLine. rewrite callerName_entry. now destruct (resolved caller).
Qed.

Lemma getPrefix001_caller `{Externals} e caller colorFunc st :
  Part001.getPrefix (e :: caller) colorFunc st
  = match resolved caller with
    | Some fn =>
        colorFunc (Part001.getPkgName (Name fn) (Part001.mainPrefixName st) +:+ ":") +:+ " "
    | None => ""
    end.
Proof.
  unfold Part001.getPrefix. rewrite callerName_entry. now destruct (resolved caller).
Qed.

Lemma getPrefixClog_caller `{Externals} e caller colorFunc :
  Clog.getPrefix (e :: caller) colorFunc
  = match resolved caller with
    | Some fn => colorFunc (Clog.getPkgName (Name fn) +:+ ":") +:+ " "
    | None => ""
    end.
Proof.
  unfold Clog.getPrefix. rewrite callerName_entry. now destruct (resolved caller).
Qed.

Lemma skip001_override e caller s m :
  Part001.skip (e :: caller) s m
  = match override001 caller m with Some thr => thr >? s | None => false end.
Proof.
  rewrite Part001_skip_paths. unfold override001.
  destruct (callPaths caller) as [P F].
  destruct (Part001.PathLevel F m) as [fl [|]]; [reflexivity|].
  now destruct (Part001.PathLevel P m) as [pl [|]].
Qed.

(** An entry point of [Part001] returns at once when [skip] says so, and
    otherwise appends the write sequence of the message, and the exit of the
    error tier, to the events. *)
Lemma call001_run `{Externals} t c caller format args st :
  call001 t c caller format args st =
    if Part001.skip (frameOf (entryName t c) :: caller) (severity t) (Part001.activeLevel st)
    then st
    else fold_left (fun st ev => Part001.emit ev st)
           (sequence001 t c caller format args st ++ exitOf t) st.
Proof.
  destruct st as [m mp dO dP iO iP wO wP eO eP evs].
  destruct t, c; unfold call001, sequence001, bodyWrites, body, tag001; simpl;
    unfold Part001.Debug, Part001.Debugf, Part001.Debugln,
      Part001.Info, Part001.Infof, Part001.Infoln,
      Part001.Warn, Part001.Warnf, Part001.Warnln,
      Part001.Fatal, Part001.Fatalf, Part001.Fatalln; simpl;
    match goal with |- context [Part001.skip ?a ?b ?c] => destruct (Part001.skip a b c) end;
    try reflexivity;
    rewrite ?getPrefix001_caller, ?getFileLine_caller;
    unfold Part001.Fprint, Part001.Fprintf, Part001.Fprintln, Part001.os_Exit, Part001.emit;
    simpl;
    match goal with |- context [if ?b then _ else _] => destruct b end; simpl;
    rewrite ?Sprint_string, ?Sprintsp_nil; simpl;
    destruct (resolved caller); reflexivity.
Qed.

Lemma fold_emit001 evs st :
  Part001.events (fold_left (fun st ev => Part001.emit ev st) evs st)
    = (Part001.events st ++ evs)%list
  /\ config001 (fold_left (fun st ev => Part001.emit ev st) evs st) = config001 st.
Proof.
  revert st. induction evs as [|ev evs IH]; intros st; simpl.
  - now rewrite app_nil_r.
  - destruct (IH (Part001.emit ev st)) as [-> ->]. simpl.
    now rewrite <- app_assoc.
Qed.

(** An entry point of [Clog] returns at once when [skip] says so, and
    otherwise appends the write sequence of the message, and the exit of the
    error tier, to the events. *)
Lemma callClog_run `{Externals} t c caller format args st :
  callClog t c caller format args st =
    if Clog.skip (frameOf (entryName t c) :: caller) (severity t) (Clog.activeLevel st)
    then st
    else fold_left (fun st ev => Clog.emit ev st)
           (sequenceClog t c caller format args st ++ exitOf t) st.
Proof.
  destruct st as [m dO iO wO eO evs].
  destruct t, c; unfold callClog, sequenceClog, bodyWrites, body, tagClog; simpl;
    unfold Clog.Debug, Clog.Debugf, Clog.Debugln, Clog.Info, Clog.Infof, Clog.Infoln,
      Clog.Warn, Clog.Warnf, Clog.Warnln, Clog.Fatal, Clog.Fatalf, Clog.Fatalln; simpl;
    match goal with |- context [Clog.skip ?a ?b ?c] => destruct (Clog.skip a b c) end;
    try reflexivity;
    rewrite ?getPrefixClog_caller, ?getFileLine_caller;
    unfold Clog.Fprint, Clog.Fprintf, Clog.Fprintln, Clog.os_Exit, Clog.emit;
    simpl; rewrite ?Sprint_string, ?Sprintsp_nil; simpl;
    destruct (resolved caller); reflexivity.
Qed.

Lemma fold_emitClog evs st :
  Clog.events (fold_left (fun st ev => Clog.emit ev st) evs st)
    = (Clog.events st ++ evs)%list
  /\ configClog (fold_left (fun st ev => Clog.emit ev st) evs st) = configClog st.
Proof.
  revert st. induction evs as [|ev evs IH]; intros st; simpl.
  - now rewrite app_nil_r.
  - destruct (IH (Clog.emit ev st)) as [-> ->]. simpl. now rewrite <- app_assoc.
Qed.

Lemma skipClog_override e caller s m :
  Clog.skip (e :: caller) s m
  = match overrideClog caller m with Some thr => thr >? s | None => false end.
Proof.
  rewrite Clog_skip_paths. unfold overrideClog, Clog.PathLevel.
  destruct (callPaths caller) as [P F].
  destruct (m !! F) as [fl|]; [reflexivity|]. now destruct (m !! P).
Qed.

Lemma exitCodes_app evs evs' :
  exitCodes (evs ++ evs') = (exitCodes evs ++ exitCodes evs')%list.
Proof.
  induction evs as [|[w p|code] evs IH]; simpl; [reflexivity|exact IH|now rewrite IH].
Qed.

Lemma exitCodes_writes w ps : exitCodes (map (EvWrite w) ps) = [].
Proof. induction ps as [|p ps IH]; simpl; [reflexivity|exact IH]. Qed.

(** C3: for each of the twelve entry points, when an override of threshold
    [thr] applies to the call site and [thr] is greater than the severity of
    the tier, the call returns the state it was given: no write, no other
    effect.  When the override is not greater, or no override applies, the
    call performs one write sequence on the sink of the tier, the prefix
    (in [src/unnamed/part_001]: if the tier uses one), then the body, then
    the newline, and changes nothing else (the error tier then exits).  In
    [src/unnamed/part_001] and in [src/clog.go]. *)
Theorem emission_by_override `{Externals} (t : Tier) (c : Convention)
    (caller : list Frame) (format : string) (args : list any)
    (st : Part001.State) (cs : Clog.State) :
  ((forall thr, override001 caller (Part001.activeLevel st) = Some thr ->
      thr > severity t ->
      call001 t c caller format args st = st)
   /\ ((exists thr, override001 caller (Part001.activeLevel st) = Some thr
                    /\ thr <= severity t)
       \/ override001 caller (Part001.activeLevel st) = None ->
       Part001.events (call001 t c caller format args st)
         = (Part001.events st
            ++ map (EvWrite (sink001 t st))
                 ((if usePrefix001 t st then [tag001 t caller st] else [])
                  ++ bodyWrites c format args)
            ++ exitOf t)%list
       /\ config001 (call001 t c caller format args st) = config001 st))
  /\ ((forall thr, overrideClog caller (Clog.activeLevel cs) = Some thr ->
         thr > severity t ->
         callClog t c caller format args cs = cs)
      /\ ((exists thr, overrideClog caller (Clog.activeLevel cs) = Some thr
                       /\ thr <= severity t)
          \/ overrideClog caller (Clog.activeLevel cs) = None ->
          Clog.events (callClog t c caller format args cs)
            = (Clog.events cs
               ++ map (EvWrite (sinkClog t cs))
                    (tagClog t caller :: bodyWrites c format args)
               ++ exitOf t)%list
          /\ configClog (callClog t c caller format args cs) = configClog cs)).
Proof.
  assert (forall o : option Z,
            (exists thr, o = Some thr /\ thr <= severity t) \/ o = None ->
            match o with Some thr => thr >? severity t | None => false end = false)
    as Hpass.
  { intros o [[thr [-> Hle]] | ->]; [|reflexivity].
    rewrite Z.gtb_ltb. apply Z.ltb_ge. exact Hle. }
  split.
  - rewrite call001_run, skip001_override. split.
    + intros thr -> Hgt. apply Z.gt_lt, Z.gtb_lt in Hgt. now rewrite Hgt.
    + intros Hno. rewrite (Hpass _ Hno).
      destruct (fold_emit001 (sequence001 t c caller format args st ++ exitOf t) st)
        as [-> ->]. split; reflexivity.
  - rewrite callClog_run, skipClog_override. split.
    + intros thr -> Hgt. apply Z.gt_lt, Z.gtb_lt in Hgt. now rewrite Hgt.
    + intros Hno. rewrite (Hpass _ Hno).
      destruct (fold_emitClog (sequenceClog t c caller format args cs ++ exitOf t) cs)
        as [-> ->]. split; reflexivity.
Qed.

Lemma emission_by_override_witness :
  @call001 plainExternals TDebug Template workerCaller "count=" ["5"] workerState
    = workerState
  /\ Part001.events
       (@call001 plainExternals TWarn Template workerCaller "count=" ["5"] workerState)
     = [EvWrite Stderr "worker: worker.go:12: "; EvWrite Stderr "count=5";
        EvWrite Stderr newline]
  /\ @callClog plainExternals TDebug ByLine workerCaller "" ["n"; "5"] workerClog
     = workerClog
  /\ Clog.events (@callClog plainExternals TInfo ByLine workerCaller "" ["n"; "5"] Clog.init)
     = [EvWrite Stderr "worker: "; EvWrite Stderr (String.append "n 5" newline)].
Proof.
  assert (override001 workerCaller (Part001.activeLevel workerState) = Some LevelWarn)
    as Hov by (vm_compute; reflexivity).
  assert (overrideClog workerCaller (Clog.activeLevel workerClog) = Some LevelWarn)
    as HovC by (vm_compute; reflexivity).
  assert (overrideClog workerCaller (Clog.activeLevel Clog.init) = None)
    as HnoC by (vm_compute; reflexivity).
  split; [|split; [|split]].
  - apply (proj1 (proj1 (@emission_by_override plainExternals TDebug Template workerCaller
                    "count=" ["5"] workerState Clog.init)) LevelWarn Hov).
    reflexivity.
  - apply (proj2 (proj1 (@emission_by_override plainExternals TWarn Template workerCaller
                    "count=" ["5"] workerState Clog.init))).
    left. exists LevelWarn. split; [exact Hov | unfold severity, LevelWarn; lia].
  - apply (proj1 (proj2 (@emission_by_override plainExternals TDebug ByLine workerCaller
                    "" ["n"; "5"] workerState workerClog)) LevelWarn HovC).
    reflexivity.
  - apply (proj2 (proj2 (@emission_by_override plainExternals TInfo ByLine workerCaller
                    "" ["n"; "5"] workerState Clog.init))).
    right. exact HnoC.
Defined.

(** C4: a fatal-tier call ([Fatal], [Fatalf], [Fatalln]) that is not
    suppressed writes its message to the sink of the error tier and then
    exits with status 1; a suppressed one does not exit; the entry points of
    the debug, info and warn tiers and the configuration operations never
    exit.  In [src/unnamed/part_001] and in [src/clog.go]. *)
Theorem fatal_exits `{Externals} (c : Convention) (caller : list Frame)
    (format : string) (args : list any) (st : Part001.State) (cs : Clog.State)
    (path name : string) (level : Level) (w : Writer) (b : bool) :
  ((Part001.skip (frameOf (entryName TError c) :: caller) LevelError
      (Part001.activeLevel st) = false ->
    Part001.events (call001 TError c caller format args st)
      = (Part001.events st
         ++ map (EvWrite (Part001.errorOutput st))
              ((if Part001.errorUsePrefix st then [tag001 TError caller st] else [])
               ++ bodyWrites c format args)
         ++ [EvExit 1])%list
    /\ exitCodes (Part001.events (call001 TError c caller format args st))
       = (exitCodes (Part001.events st) ++ [1])%list)
   /\ (Part001.skip (frameOf (entryName TError c) :: caller) LevelError
         (Part001.activeLevel st) = true ->
       call001 TError c caller format args st = st)
   /\ Forall (fun t =>
         exitCodes (Part001.events (call001 t c caller format args st))
         = exitCodes (Part001.events st)) [TDebug; TInfo; TWarn]
   /\ Part001.events (Part001.SetPathLevel path level st) = Part001.events st
   /\ Part001.events (Part001.SetMainPrefixName name st) = Part001.events st
   /\ Part001.events (Part001.SetDebugOutput w st) = Part001.events st
   /\ Part001.events (Part001.SetInfoOutput w st) = Part001.events st
   /\ Part001.events (Part001.SetWarnOutput w st) = Part001.events st
   /\ Part001.events (Part001.SetErrorOutput w st) = Part001.events st
   /\ Part001.events (Part001.SetDebugPrefix b st) = Part001.events st
   /\ Part001.events (Part001.SetInfoPrefix b st) = Part001.events st
   /\ Part001.events (Part001.SetWarnPrefix b st) = Part001.events st
   /\ Part001.events (Part001.SetErrorPrefix b st) = Part001.events st)
  /\ ((Clog.skip (frameOf (entryName TError c) :: caller) LevelError
         (Clog.activeLevel cs) = false ->
       Clog.events (callClog TError c caller format args cs)
         = (Clog.events cs
            ++ map (EvWrite (Clog.errorOutput cs))
                 (tagClog TError caller :: bodyWrites c format args)
            ++ [EvExit 1])%list
       /\ exitCodes (Clog.events (callClog TError c caller format args cs))
          = (exitCodes (Clog.events cs) ++ [1])%list)
      /\ (Clog.skip (frameOf (entryName TError c) :: caller) LevelError
            (Clog.activeLevel cs) = true ->
          callClog TError c caller format args cs = cs)
      /\ Forall (fun t =>
            exitCodes (Clog.events (callClog t c caller format args cs))
            = exitCodes (Clog.events cs)) [TDebug; TInfo; TWarn]
      /\ Clog.events (Clog.SetPathLevel path level cs) = Clog.events cs
      /\ Clog.events (Clog.SetDebugOutput w cs) = Clog.events cs
      /\ Clog.events (Clog.SetInfoOutput w cs) = Clog.events cs
      /\ Clog.events (Clog.SetWarnOutput w cs) = Clog.events cs
      /\ Clog.events (Clog.SetErrorOutput w cs) = Clog.events cs).
Proof.
  split.
  - split; [|split; [|split; [|repeat apply conj; reflexivity]]].
    + intros Hs. rewrite call001_run. simpl severity. rewrite Hs.
      destruct (fold_emit001 (sequence001 TError c caller format args st ++ exitOf TError) st)
        as [-> _]. split; [reflexivity|].
      unfold sequence001. now rewrite !exitCodes_app, exitCodes_writes.
    + intros Hs. rewrite call001_run. simpl severity. now rewrite Hs.
    + repeat constructor; rewrite call001_run;
        (destruct (Part001.skip _ _ _); [reflexivity|]);
        rewrite (proj1 (fold_emit001 _ _));
        unfold sequence001; rewrite !exitCodes_app, exitCodes_writes;
        simpl; now rewrite ?app_nil_r.
  - split; [|split; [|split; [|repeat apply conj; reflexivity]]].
    + intros Hs. rewrite callClog_run. simpl severity. rewrite Hs.
      rewrite (proj1 (fold_emitClog _ _)). split; [reflexivity|].
      unfold sequenceClog. now rewrite !exitCodes_app, exitCodes_writes.
    + intros Hs. rewrite callClog_run. simpl severity. now rewrite Hs.
    + repeat constructor; rewrite callClog_run;
        (destruct (Clog.skip _ _ _); [reflexivity|]);
        rewrite (proj1 (fold_emitClog _ _));
        unfold sequenceClog; rewrite !exitCodes_app, exitCodes_writes;
        simpl; now rewrite ?app_nil_r.
Qed.

Lemma fatal_exits_witness :
  Part001.events (@call001 plainExternals TError Direct mainCaller "" ["boom"] Part001.init)
    = [EvWrite Stderr "main: main.go:7: "; EvWrite Stderr "boom"; EvWrite Stderr newline;
       EvExit 1]
  /\ @call001 plainExternals TError Direct mainCaller "" ["boom"] quietState = quietState
  /\ Clog.events (@callClog plainExternals TError ByLine mainCaller "" ["boom"] Clog.init)
     = [EvWrite Stderr "main: main.go:7: "; EvWrite Stderr (String.append "boom" newline);
        EvExit 1].
Proof.
  pose proof (@fatal_exits plainExternals Direct mainCaller "" ["boom"]
                Part001.init Clog.init "" "" 0 Stderr true) as [[H1 _] _].
  pose proof (@fatal_exits plainExternals Direct mainCaller "" ["boom"]
                quietState Clog.init "" "" 0 Stderr true) as [[_ [H2 _]] _].
  pose proof (@fatal_exits plainExternals ByLine mainCaller "" ["boom"]
                Part001.init Clog.init "" "" 0 Stderr true) as [_ [H4 _]].
  split; [|split].
  - apply H1. vm_compute. reflexivity.
  - apply H2. vm_compute. reflexivity.
  - apply H4. vm_compute. reflexivity.
Defined.

(** The hierarchical lookup of the empty path: its entry, else the entry of
    ".", which is its [Dir] and the root of the ascent. *)
Lemma PathLevel_empty m :
  Part001.PathLevel "" m =
    match m !! "" with
    | Some thr => (thr, true)
    | None => match m !! "." with Some thr => (thr, true) | None => (0, false) end
    end.
Proof.
  unfold Part001.PathLevel, Part001.ascents. simpl.
  destruct (m !! "") as [thr|]; [reflexivity|].
  change (Dir "") with ".". simpl. destruct (m !! ".") as [thr|]; reflexivity.
Qed.

(** C5, as stated, fails: with a threshold installed for ".", a debug call
    whose stack inspection fails is suppressed and writes nothing. *)
Lemma unattributed_call_suppressed :
  callerName 3 (frameOf "getQualifiedPaths" :: frameOf "skip" :: frameOf "Debug"
                :: unknownCaller) = ("", "", 0, false)
  /\ Part001.skip (frameOf "Debug" :: unknownCaller) LevelDebug
       (Part001.activeLevel dotState) = true
  /\ @call001 plainExternals TDebug Direct unknownCaller "" ["lost"] dotState = dotState
  /\ Part001.events (@call001 plainExternals TDebug Direct unknownCaller "" ["lost"] dotState)
     = [].
Proof. repeat apply conj; vm_compute; reflexivity. Qed.

(** C5 (amended): when stack inspection fails, the package and function paths
    of the caller are the empty string and the prefix and file:line tags are
    empty.  The empty path is looked up as any other: in
    [src/unnamed/part_001] the threshold of its entry, or else of the entry
    of ".", decides, and in [src/clog.go] the threshold of its entry.  When
    the registry has neither entry the message is not suppressed, and the
    call writes the (empty) prefix, if the tier uses one, the body and the
    newline; no entry point has an error result. *)
Theorem unattributed_call `{Externals} (t : Tier) (c : Convention) (e : Frame)
    (caller : list Frame) (format : string) (args : list any)
    (st : Part001.State) (cs : Clog.State)
    (Hfail : resolved caller = None) :
  callerName 3 (frameOf "getQualifiedPaths" :: frameOf "skip" :: e :: caller)
    = ("", "", 0, false)
  /\ callerName 2 (frameOf "getPrefix" :: e :: caller) = ("", "", 0, false)
  /\ getQualifiedPaths (frameOf "skip" :: e :: caller) = ("", "")
  /\ Part001.getPrefix (e :: caller) (style t) st = ""
  /\ Clog.getPrefix (e :: caller) (style t) = ""
  /\ getFileLine (e :: caller) = ""
  /\ Part001.skip (e :: caller) (severity t) (Part001.activeLevel st)
     = match Part001.activeLevel st !! "" with
       | Some thr => thr >? severity t
       | None =>
           match Part001.activeLevel st !! "." with
           | Some thr => thr >? severity t
           | None => false
           end
       end
  /\ Clog.skip (e :: caller) (severity t) (Clog.activeLevel cs)
     = match Clog.activeLevel cs !! "" with
       | Some thr => thr >? severity t
       | None => false
       end
  /\ (Part001.activeLevel st !! "" = None -> Part001.activeLevel st !! "." = None ->
      Part001.events (call001 t c caller format args st)
      = (Part001.events st
         ++ map (EvWrite (sink001 t st))
              ((if usePrefix001 t st then [""] else []) ++ bodyWrites c format args)
         ++ exitOf t)%list)
  /\ (Clog.activeLevel cs !! "" = None ->
      Clog.events (callClog t c caller format args cs)
      = (Clog.events cs
         ++ map (EvWrite (sinkClog t cs)) ("" :: bodyWrites c format args)
         ++ exitOf t)%list).
Proof.
  assert (forall m, Part001.skip (e :: caller) (severity t) m
            = match m !! "" with
              | Some thr => thr >? severity t
              | None => match m !! "." with
                        | Some thr => thr >? severity t
                        | None => false
                        end
              end) as Hskip.
  { intros m. rewrite Part001_skip_paths. unfold callPaths. rewrite Hfail.
    rewrite PathLevel_empty.
    destruct (m !! "") as [thr|]; [reflexivity|]. now destruct (m !! "."). }
  assert (forall e' m, Clog.skip (e' :: caller) (severity t) m
            = match m !! "" with
              | Some thr => thr >? severity t
              | None => false
              end) as HskipC.
  { intros e' m. rewrite Clog_skip_paths. unfold callPaths. rewrite Hfail.
    now destruct (m !! ""). }
  split; [rewrite callerName_skip; now rewrite Hfail|].
  split; [rewrite callerName_entry; now rewrite Hfail|].
  split; [rewrite getQualifiedPaths_caller; unfold callPaths; now rewrite Hfail|].
  split; [rewrite getPrefix001_caller; now rewrite Hfail|].
  split; [rewrite getPrefixClog_caller; now rewrite Hfail|].
  split; [rewrite getFileLine_caller; now rewrite Hfail|].
  split; [apply Hskip|]. split; [apply HskipC|]. split.
  - intros H0 H1. rewrite call001_run.
    assert (Part001.skip (frameOf (entryName t c) :: caller) (severity t)
              (Part001.activeLevel st) = false) as ->.
    { rewrite skip001_override. unfold override001, callPaths. rewrite Hfail.
      rewrite PathLevel_empty, H0, H1. reflexivity. }
    destruct (fold_emit001 (sequence001 t c caller format args st ++ exitOf t) st)
      as [-> _].
    unfold sequence001, tag001. now rewrite Hfail.
  - intros H0. rewrite callClog_run, HskipC, H0, (proj1 (fold_emitClog _ _)).
    unfold sequenceClog, tagClog. now rewrite Hfail.
Qed.

Lemma unattributed_call_witness :
  Part001.events (@call001 plainExternals TWarn Direct unknownCaller "" ["odd"] Part001.init)
    = [EvWrite Stderr ""; EvWrite Stderr "odd"; EvWrite Stderr newline]
  /\ Part001.skip (frameOf "Warn" :: unknownCaller) LevelWarn
       (Part001.activeLevel dotState) = true.
Proof.
  pose proof (@unattributed_call plainExternals TWarn Direct (frameOf "Warn")
                unknownCaller "" ["odd"] Part001.init Clog.init eq_refl)
    as [_ [_ [_ [_ [_ [_ [_ [_ [Hw _]]]]]]]]].
  pose proof (@unattributed_call plainExternals TWarn Direct (frameOf "Warn")
                unknownCaller "" ["odd"] dotState Clog.init eq_refl)
    as [_ [_ [_ [_ [_ [_ [Hs _]]]]]]].
  split.
  - apply Hw; vm_compute; reflexivity.
  - etransitivity; [exact Hs | vm_compute; reflexivity].
Defined.

(** * Further properties of the code *)

(** ** Package path, package name and function name *)

Lemma take_drop_str n s : take n s +:+ drop n s = s.
Proof.
  revert s. induction n as [|n IH]; intros [|c t]; simpl; try reflexivity.
  now rewrite IH.
Qed.

Lemma str_app_assoc s t u : (s +:+ t) +:+ u = s +:+ (t +:+ u).
Proof. induction s as [|c s IH]; simpl; [reflexivity | now rewrite IH]. Qed.

Lemma slice_from_Index s :
  hasPeriod s = true -> slice_from s (Index s "." + 1) = afterPeriod s.
Proof.
  unfold slice_from. induction s as [|c t IH]; simpl; [discriminate|].
  destruct (Ascii.eqb c "."); simpl; [reflexivity|]. intros Hp.
  pose proof (Index_hasPeriod t) as Hi. rewrite Hp in Hi. simpl in Hi. rewrite Hi.
  pose proof (Index_range t "."). apply Z.eqb_neq in Hi.
  replace (Z.to_nat (Index t "." + 1 + 1)) with (S (Z.to_nat (Index t "." + 1))) by lia.
  simpl. now apply IH.
Qed.

(** What [getFuncName] returns, for every string. *)
Lemma getFuncName_splitLast name :
  getFuncName name =
    let f := snd (splitLast name) in
    if hasPeriod f then afterPeriod f else f.
Proof.
  unfold getFuncName.
  assert ((if negb (LastIndex name "/" =? -1)
           then slice_from name (LastIndex name "/" + 1) else name)
          = snd (splitLast name)) as ->.
  { destruct (Z.eqb_spec (LastIndex name "/") (-1)) as [E|E]; simpl.
    - rewrite <- slice_from_LastIndex, E. reflexivity.
    - apply slice_from_LastIndex. }
  simpl. rewrite Index_hasPeriod.
  destruct (hasPeriod (snd (splitLast name))) eqn:Hp; simpl; [|reflexivity].
  now apply slice_from_Index.
Qed.

Lemma untilPeriod_afterPeriod f :
  hasPeriod f = true -> untilPeriod f +:+ String "." (afterPeriod f) = f.
Proof.
  induction f as [|c t IH]; simpl; [discriminate|].
  destruct (Ascii.eqb_spec c "."); simpl; [now subst|]. intros Hp. now rewrite IH.
Qed.

Lemma hasSlash_app s t : hasSlash (s +:+ t) = hasSlash s || hasSlash t.
Proof.
  induction s as [|c s IH]; simpl; [reflexivity|]. now rewrite IH, orb_assoc.
Qed.

Lemma hasPeriod_app s t : hasPeriod (s +:+ t) = hasPeriod s || hasPeriod t.
Proof.
  induction s as [|c s IH]; simpl; [reflexivity|]. now rewrite IH, orb_assoc.
Qed.

Lemma splitLast_snd_noslash s : hasSlash (snd (splitLast s)) = false.
Proof.
  induction s as [|c t IH]; simpl; [reflexivity|].
  pose proof (splitLast_app t) as Ht.
  destruct (splitLast t) as [d f]; simpl in *.
  destruct d as [|c' d']; simpl; [|exact IH]. simpl in Ht. subst f.
  destruct (Ascii.eqb c "/") eqn:Ec; simpl; [exact IH|]. now rewrite Ec.
Qed.

Lemma untilPeriod_noslash f : hasSlash f = false -> hasSlash (untilPeriod f) = false.
Proof.
  induction f as [|c t IH]; simpl; [reflexivity|].
  destruct (Ascii.eqb c "."); simpl; [reflexivity|].
  destruct (Ascii.eqb c "/"); simpl; [discriminate|exact IH].
Qed.

Lemma afterPeriod_noslash f : hasSlash f = false -> hasSlash (afterPeriod f) = false.
Proof.
  induction f as [|c t IH]; simpl; [reflexivity|].
  destruct (Ascii.eqb c "/"); simpl; [discriminate|]. intros Ht.
  destruct (Ascii.eqb c "."); [exact Ht | now apply IH].
Qed.

Lemma untilPeriod_noperiod f : hasPeriod (untilPeriod f) = false.
Proof.
  induction f as [|c t IH]; simpl; [reflexivity|].
  destruct (Ascii.eqb c ".") eqn:Ec; simpl; [reflexivity|]. now rewrite Ec.
Qed.

Lemma splitLast_app_noslash s t :
  hasSlash t = false ->
  splitLast (s +:+ t) = (fst (splitLast s), snd (splitLast s) +:+ t).
Proof.
  intros Ht. induction s as [|c s IH]; simpl.
  - now rewrite (splitLast_noslash t Ht).
  - rewrite IH. destruct (splitLast s) as [d f]; simpl.
    destruct d as [|c' d']; [|reflexivity].
    now destruct (Ascii.eqb c "/").
Qed.

Lemma splitLast_fst_idem s :
  splitLast (fst (splitLast s)) = (fst (splitLast s), "").
Proof.
  induction s as [|c t IH]; simpl; [reflexivity|].
  destruct (splitLast t) as [d f]; simpl in *.
  destruct d as [|c' d'].
  - destruct (Ascii.eqb c "/") eqn:Ec; simpl; [now rewrite Ec|reflexivity].
  - simpl. simpl in IH. now rewrite IH.
Qed.

Lemma untilPeriod_app_period f t :
  hasPeriod f = false -> untilPeriod (f +:+ String "." t) = f.
Proof.
  induction f as [|c f IH]; simpl; [reflexivity|].
  destruct (Ascii.eqb c "."); simpl; [discriminate|]. intros Hp. now rewrite IH.
Qed.

Lemma afterPeriod_app_period f t :
  hasPeriod f = false -> afterPeriod (f +:+ String "." t) = t.
Proof.
  induction f as [|c f IH]; simpl; [reflexivity|].
  destruct (Ascii.eqb c "."); simpl; [discriminate|]. exact IH.
Qed.

(** X1: a path-qualified function name is its package path, a period and
    its function name, and the package path is the text up to the last
    slash followed by the package name. *)
Theorem names_round_trip (F : string) (HF : pathQualified F) :
  getPkgPath F +:+ "." +:+ getFuncName F = F
  /\ getPkgPath F = fst (splitLast F) +:+ pkgNameOf F
  /\ pkgNameOf (getPkgPath F) = pkgNameOf F.
Proof.
  unfold pathQualified in HF.
  rewrite getPkgPath_splitLast, getFuncName_splitLast, !pkgNameOf_splitLast.
  pose proof (splitLast_app F) as Hs. pose proof (splitLast_snd_noslash F) as Hn.
  pose proof (splitLast_fst_idem F) as Hi.
  destruct (splitLast F) as [d f]; simpl in *. rewrite HF. simpl.
  split; [|split; [reflexivity|]].
  - rewrite <- Hs, str_app_assoc. now rewrite (untilPeriod_afterPeriod f HF).
  - rewrite (splitLast_app_noslash d (untilPeriod f) (untilPeriod_noslash f Hn)).
    rewrite Hi. simpl. apply untilPeriod_none, untilPeriod_noperiod.
Qed.

Lemma names_round_trip_witness :
  getPkgPath "github.com/user/repo/pkg.(*T).Method" +:+ "."
    +:+ getFuncName "github.com/user/repo/pkg.(*T).Method"
  = "github.com/user/repo/pkg.(*T).Method"
  /\ getPkgPath "github.com/user/repo/pkg.(*T).Method" = "github.com/user/repo/" +:+ "pkg".
Proof.
  assert (pathQualified "github.com/user/repo/pkg.(*T).Method") as HF by reflexivity.
  destruct (names_round_trip "github.com/user/repo/pkg.(*T).Method" HF) as [H1 [H2 _]].
  exact (conj H1 H2).
Defined.

(** X2: the three name functions undo the joining of a package path and a
    function name.  For a package path [P] whose final segment has no period
    and a function name [fn] without a slash, [P.fn] has the package path
    [P], the function name [fn] and the final segment of [P] as its package
    name. *)
Theorem names_of_join (P fn : string)
    (HP : hasPeriod (snd (splitLast P)) = false) (Hfn : hasSlash fn = false) :
  getPkgPath (P +:+ "." +:+ fn) = P
  /\ getFuncName (P +:+ "." +:+ fn) = fn
  /\ pkgNameOf (P +:+ "." +:+ fn) = snd (splitLast P).
Proof.
  assert (hasSlash ("." +:+ fn) = false) as Hs by (simpl; exact Hfn).
  rewrite getPkgPath_splitLast, getFuncName_splitLast, pkgNameOf_splitLast.
  rewrite (splitLast_app_noslash P ("." +:+ fn) Hs).
  pose proof (splitLast_app P) as HsP.
  destruct (splitLast P) as [d f]; simpl in *.
  rewrite hasPeriod_app. simpl. rewrite orb_true_r.
  rewrite (untilPeriod_app_period f fn HP), (afterPeriod_app_period f fn HP).
  repeat split. exact HsP.
Qed.

Lemma names_of_join_witness :
  getPkgPath ("app/worker" +:+ "." +:+ "Pool.func1") = "app/worker"
  /\ getFuncName ("app/worker" +:+ "." +:+ "Pool.func1") = "Pool.func1"
  /\ pkgNameOf ("app/worker" +:+ "." +:+ "Pool.func1") = "worker".
Proof.
  exact (names_of_join "app/worker" "Pool.func1" eq_refl eq_refl).
Defined.

(** X3: a name whose final segment has no period is not split at all:
    [getPkgPath] returns the text up to and including the last slash (the
    empty string when there is no slash), and [getPkgName] and [getFuncName]
    both return the final segment. *)
Theorem names_without_period (F : string)
    (HF : hasPeriod (snd (splitLast F)) = false) :
  getPkgPath F = fst (splitLast F)
  /\ pkgNameOf F = snd (splitLast F)
  /\ getFuncName F = snd (splitLast F)
  /\ getPkgPath F +:+ getFuncName F = F.
Proof.
  rewrite getPkgPath_splitLast, getFuncName_splitLast, pkgNameOf_splitLast.
  pose proof (splitLast_app F) as Hs.
  destruct (splitLast F) as [d f]; simpl in *. rewrite HF.
  repeat split; [now apply untilPeriod_none | exact Hs].
Qed.

Lemma names_without_period_witness :
  getPkgPath "github.com/user/repo" = "github.com/user/"
  /\ pkgNameOf "github.com/user/repo" = "repo"
  /\ getFuncName "github.com/user/repo" = "repo"
  /\ getPkgPath "main" = "".
Proof.
  destruct (names_without_period "github.com/user/repo" eq_refl) as [H1 [H2 [H3 _]]].
  destruct (names_without_period "main" eq_refl) as [H4 _].
  exact (conj H1 (conj H2 (conj H3 H4))).
Defined.

(** X4: [getPkgPath] is not idempotent.  Applied to its own result it drops
    the package name and leaves the text up to the last slash of the name,
    for every string; from there on it changes nothing. *)
Theorem getPkgPath_twice (F : string) :
  getPkgPath (getPkgPath F) = fst (splitLast F)
  /\ getPkgPath (getPkgPath (getPkgPath F)) = getPkgPath (getPkgPath F).
Proof.
  assert (forall G, getPkgPath (fst (splitLast G)) = fst (splitLast G)) as Hdir.
  { intros G. rewrite getPkgPath_splitLast, splitLast_fst_idem. reflexivity. }
  assert (getPkgPath (getPkgPath F) = fst (splitLast F)) as E.
  { rewrite (getPkgPath_splitLast F).
    pose proof (splitLast_fst_idem F) as Hi.
    pose proof (splitLast_snd_noslash F) as Hn.
    destruct (splitLast F) as [d f]; simpl in *.
    destruct (hasPeriod f).
    - rewrite getPkgPath_splitLast.
      rewrite (splitLast_app_noslash d (untilPeriod f) (untilPeriod_noslash f Hn)).
      rewrite Hi. simpl. now rewrite untilPeriod_noperiod.
    - rewrite getPkgPath_splitLast, Hi. reflexivity. }
  split; [exact E|]. rewrite E. apply Hdir.
Qed.

(** X5: what the name functions return, for every string: [getPkgPath]
    returns a prefix of the name, the package name has neither a slash nor a
    period, and the function name has no slash. *)
Theorem names_shape (F : string) :
  (exists rest, F = getPkgPath F +:+ rest)
  /\ (String.length (getPkgPath F) <= String.length F)%nat
  /\ hasSlash (pkgNameOf F) = false
  /\ hasPeriod (pkgNameOf F) = false
  /\ hasSlash (getFuncName F) = false.
Proof.
  pose proof (splitLast_snd_noslash F) as Hn.
  assert (exists rest, F = getPkgPath F +:+ rest) as [rest Hrest].
  { exists (slice_from F (getPkgPath_end F)).
    rewrite (proj1 (getPkgPath_in_range F)). unfold slice_to, slice_from.
    symmetry. apply take_drop_str. }
  split; [now exists rest|]. split.
  { rewrite Hrest at 2. rewrite app_length_str. lia. }
  rewrite pkgNameOf_splitLast, getFuncName_splitLast. simpl.
  split; [now apply untilPeriod_noslash|]. split; [apply untilPeriod_noperiod|].
  destruct (hasPeriod (snd (splitLast F))); [now apply afterPeriod_noslash | exact Hn].
Qed.

(** ** The registry and [skip] *)

(** The hierarchical lookup reads the registry on the ascent only. *)
Lemma PathLevel_ascent_only path m m' :
  (forall n, m !! iterDir n path = m' !! iterDir n path) ->
  Part001.PathLevel path m = Part001.PathLevel path m'.
Proof.
  intros Hsame. pose proof (PathLevel_sound path m) as Hs.
  destruct (Part001.PathLevel path m) as [t [|]].
  - destruct Hs as [n [Hn Hk]]. symmetry. apply (PathLevel_found path m' n t).
    split; [now rewrite <- Hsame|]. intros k Hlt. rewrite <- Hsame. now apply Hk.
  - destruct Hs as [-> Hnone]. symmetry. apply PathLevel_not_found.
    intros n. now rewrite <- Hsame.
Qed.

(** A level that [PathLevel] finds is a threshold of the registry. *)
Lemma PathLevel_found_entry path m t :
  Part001.PathLevel path m = (t, true) -> exists k, m !! k = Some t.
Proof.
  intros E. pose proof (PathLevel_sound path m) as Hs. rewrite E in Hs.
  destruct Hs as [n [Hn _]]. eauto.
Qed.

(** X6: with an empty registry no path has a level and [skip] suppresses
    nothing, for every stack and severity, in the three revisions. *)
Theorem nothing_suppressed_by_default (stack : list Frame) (s : Level) (path : string) :
  Part000.PathLevel path ∅ = (0, false)
  /\ Clog.PathLevel path ∅ = (0, false)
  /\ Part001.PathLevel path ∅ = (0, false)
  /\ Part000.skip stack s ∅ = false
  /\ Clog.skip stack s ∅ = false
  /\ Part001.skip stack s ∅ = false.
Proof.
  assert (forall p, Part001.PathLevel p ∅ = (0, false)) as H1.
  { intros p. apply PathLevel_not_found. intros n. apply lookup_empty. }
  unfold Part000.skip, Clog.skip, Part001.skip, Part000.PathLevel, Clog.PathLevel.
  destruct (getQualifiedPaths (frameOf "skip" :: stack)) as [P F].
  rewrite !lookup_empty, !H1. repeat split.
Qed.

(** X7: in the exact lookup of [src/unnamed/part_000] and [src/clog.go],
    setting the level of a path leaves the level of every other path as it
    was. *)
Theorem SetPathLevel_other_exact (p q : string) (l : Level)
    (m : gmap string Level) (cs : Clog.State) (Hne : p <> q) :
  Part000.PathLevel p (Part000.SetPathLevel q l m) = Part000.PathLevel p m
  /\ Clog.PathLevel p (Clog.activeLevel (Clog.SetPathLevel q l cs))
     = Clog.PathLevel p (Clog.activeLevel cs).
Proof.
  unfold Part000.PathLevel, Part000.SetPathLevel, Clog.PathLevel, Clog.SetPathLevel.
  simpl. rewrite !lookup_insert_ne by congruence. split; reflexivity.
Qed.

Lemma SetPathLevel_other_exact_witness :
  Part000.PathLevel "app/worker" (Part000.SetPathLevel "app" LevelError workerRegistry)
    = (LevelWarn, true)
  /\ Clog.PathLevel "app" (Clog.activeLevel (Clog.SetPathLevel "app/worker" LevelWarn Clog.init))
     = (0, false).
Proof.
  assert ("app/worker" <> "app") as H1 by (apply (bool_decide_unpack _); vm_compute; exact I).
  assert ("app" <> "app/worker") as H2 by (apply (bool_decide_unpack _); vm_compute; exact I).
  split.
  - rewrite (proj1 (SetPathLevel_other_exact "app/worker" "app" LevelError
               workerRegistry Clog.init H1)).
    vm_compute. reflexivity.
  - rewrite (proj2 (SetPathLevel_other_exact "app" "app/worker" LevelWarn
               workerRegistry Clog.init H2)).
    vm_compute. reflexivity.
Defined.

(** X8: in the hierarchical lookup of [src/unnamed/part_001], setting the
    level of a path [q] leaves the level of [p] as it was when [q] is not on
    the ascent from [p]; a path below [p], or beside it, never changes
    [PathLevel p]. *)
Theorem SetPathLevel_off_ascent (p q : string) (l : Level) (st : Part001.State)
    (Hoff : forall n, iterDir n p <> q) :
  Part001.PathLevel p (Part001.activeLevel (Part001.SetPathLevel q l st))
  = Part001.PathLevel p (Part001.activeLevel st).
Proof.
  apply PathLevel_ascent_only. intros n. simpl.
  apply lookup_insert_ne. intros E. now apply (Hoff n).
Qed.

(** The ascent from "app" is "app", ".": "app/worker" is not on it. *)
Lemma iterDir_app n : iterDir n "app" <> "app/worker".
Proof.
  destruct n as [|n]; [apply (bool_decide_unpack _); vm_compute; exact I|].
  simpl. change (Dir "app") with ".". rewrite iterDir_fixed by reflexivity.
  apply (bool_decide_unpack _). vm_compute. exact I.
Qed.

Lemma SetPathLevel_off_ascent_witness :
  Part001.PathLevel "app"
    (Part001.activeLevel (Part001.SetPathLevel "app/worker" LevelWarn Part001.init))
  = (0, false).
Proof.
  rewrite (SetPathLevel_off_ascent "app" "app/worker" LevelWarn Part001.init iterDir_app).
  vm_compute. reflexivity.
Defined.

(** X9: when every threshold of the registry is at most [s], no message of
    severity [s] is suppressed, in the three revisions.  With thresholds up
    to [LevelError], the highest of the levels the package names, no fatal
    call is suppressed. *)
Theorem thresholds_within_pass (stack : list Frame) (s : Level) (m : gmap string Level)
    (Hall : thresholdsWithin m s) :
  Part000.skip stack s m = false
  /\ Clog.skip stack s m = false
  /\ Part001.skip stack s m = false.
Proof.
  assert (forall k v, m !! k = Some v -> (v >? s) = false) as Hgt.
  { intros k v E. rewrite Z.gtb_ltb. apply Z.ltb_ge. now apply (Hall k). }
  unfold Part000.skip, Clog.skip, Part001.skip, Part000.PathLevel, Clog.PathLevel.
  destruct (getQualifiedPaths (frameOf "skip" :: stack)) as [P F].
  split; [|split].
  - destruct (m !! F) as [fl|] eqn:EF; destruct (m !! P) as [pl|] eqn:EP; simpl;
      rewrite ?(Hgt _ _ EF), ?(Hgt _ _ EP); reflexivity.
  - destruct (m !! F) as [fl|] eqn:EF; [now apply (Hgt F)|].
    destruct (m !! P) as [pl|] eqn:EP; [now apply (Hgt P)|reflexivity].
  - destruct (Part001.PathLevel F m) as [fl [|]] eqn:EF.
    + destruct (PathLevel_found_entry _ _ _ EF) as [k Hk]. now apply (Hgt k).
    + destruct (Part001.PathLevel P m) as [pl [|]] eqn:EP; [|reflexivity].
      destruct (PathLevel_found_entry _ _ _ EP) as [k Hk]. now apply (Hgt k).
Qed.

Lemma thresholds_within_pass_witness :
  Part000.skip (frameOf "Fatal" :: mainCaller) LevelError mainRegistry = false
  /\ Clog.skip (frameOf "Fatal" :: mainCaller) LevelError mainRegistry = false
  /\ Part001.skip (frameOf "Fatal" :: mainCaller) LevelError mainRegistry = false.
Proof.
  apply thresholds_within_pass.
  change (map_Forall (fun _ v => v <= LevelError) mainRegistry).
  apply (bool_decide_unpack _). vm_compute. exact I.
Defined.

(** X10: [skip] of [src/unnamed/part_000] suppresses what [skip] of
    [src/clog.go] suppresses and, besides, what the threshold of the package
    path alone suppresses: the later revision only ever lets more through. *)
Theorem skip_part000_clog (stack : list Frame) (s : Level) (m : gmap string Level) :
  Part000.skip stack s m
  = Clog.skip stack s m
    || match m !! fst (getQualifiedPaths (frameOf "skip" :: stack)) with
       | Some pl => pl >? s
       | None => false
       end.
Proof.
  unfold Part000.skip, Clog.skip, Part000.PathLevel, Clog.PathLevel.
  destruct (getQualifiedPaths (frameOf "skip" :: stack)) as [P F]. simpl.
  destruct (m !! F) as [fl|]; destruct (m !! P) as [pl|]; simpl;
    repeat match goal with |- context [?a >? ?b] => destruct (a >? b) end; reflexivity.
Qed.

(** Without an entry above [x], the hierarchical lookup is the exact one. *)
Lemma PathLevel_no_ancestors x m :
  (forall n, (1 <= n)%nat -> m !! iterDir n x = None) ->
  Part001.PathLevel x m = Clog.PathLevel x m.
Proof.
  intros Hno. unfold Clog.PathLevel. destruct (m !! x) as [t|] eqn:E.
  - now apply PathLevel_exact.
  - apply PathLevel_not_found. intros [|n]; [exact E | apply Hno; lia].
Qed.

(** X11: when the registry has no entry for a proper ancestor of the
    function path or of the package path of the caller, [skip] of
    [src/unnamed/part_001] decides as [skip] of [src/clog.go] does. *)
Theorem skip_part001_clog (stack : list Frame) (s : Level) (m : gmap string Level)
    (Hno : forall n, (1 <= n)%nat ->
       m !! iterDir n (fst (getQualifiedPaths (frameOf "skip" :: stack))) = None
       /\ m !! iterDir n (snd (getQualifiedPaths (frameOf "skip" :: stack))) = None) :
  Part001.skip stack s m = Clog.skip stack s m.
Proof.
  unfold Part001.skip, Clog.skip.
  destruct (getQualifiedPaths (frameOf "skip" :: stack)) as [P F]. simpl in Hno.
  rewrite (PathLevel_no_ancestors F), (PathLevel_no_ancestors P); [reflexivity| |];
    intros n Hn; now apply Hno.
Qed.

Lemma skip_part001_clog_witness :
  Part001.skip workerStack LevelDebug workerRegistry
  = Clog.skip workerStack LevelDebug workerRegistry.
Proof.
  apply skip_part001_clog. intros n Hn.
  change (getQualifiedPaths (frameOf "skip" :: workerStack))
    with ("app/worker", "app/worker.Process").
  destruct n as [|[|n]]; [lia| |]; simpl.
  - split; vm_compute; reflexivity.
  - change (Dir "app/worker") with "app". change (Dir "app/worker.Process") with "app".
    change (Dir "app") with ".". rewrite iterDir_fixed by reflexivity.
    split; vm_compute; reflexivity.
Defined.

Lemma getPkgPath_join P fn :
  hasPeriod (snd (splitLast P)) = false -> hasSlash fn = false ->
  getPkgPath (P +:+ "." +:+ fn) = P.
Proof.
  intros HP Hfn.
  assert (hasSlash ("." +:+ fn) = false) as Hs by (simpl; exact Hfn).
  rewrite getPkgPath_splitLast, (splitLast_app_noslash P ("." +:+ fn) Hs).
  pose proof (splitLast_app P) as HsP.
  destruct (splitLast P) as [d f]; simpl in *.
  rewrite hasPeriod_app. simpl. rewrite orb_true_r.
  now rewrite (untilPeriod_app_period f fn HP).
Qed.

(** X12: in [src/unnamed/part_001] the threshold of a parent directory takes
    the place of the threshold of the package.  For a function [fn] of the
    package [dir/name] without an entry of its own, the ascent from the
    function path goes to [dir] and not through [dir/name], so the threshold
    of [dir] decides whatever the registry holds for [dir/name]; in
    [src/clog.go] the threshold of [dir/name] decides. *)
Theorem directory_shadows_package (dir name fn file : string) (line : Z)
    (td tp s : Level) (m : gmap string Level) (e : Frame) (rest : list Frame)
    (Hclean : Clean dir = dir) (Hdir : dir <> "")
    (Hname : hasSlash name = false) (Hnp : hasPeriod name = false)
    (Hfn : hasSlash fn = false)
    (HF : m !! (dir +:+ "/" +:+ name +:+ "." +:+ fn) = None)
    (Hd : m !! dir = Some td)
    (Hp : m !! (dir +:+ "/" +:+ name) = Some tp) :
  callPaths (Some {| Name := dir +:+ "/" +:+ name +:+ "." +:+ fn;
                     File := file; Line := line |} :: rest)
    = (dir +:+ "/" +:+ name, dir +:+ "/" +:+ name +:+ "." +:+ fn)
  /\ Part001.skip (e :: Some {| Name := dir +:+ "/" +:+ name +:+ "." +:+ fn;
                                File := file; Line := line |} :: rest) s m
     = (td >? s)
  /\ Clog.skip (e :: Some {| Name := dir +:+ "/" +:+ name +:+ "." +:+ fn;
                             File := file; Line := line |} :: rest) s m
     = (tp >? s).
Proof.
  assert (getPkgPath (dir +:+ "/" +:+ name +:+ "." +:+ fn) = dir +:+ "/" +:+ name) as HP.
  { pose proof (getPkgPath_join (dir +:+ "/" +:+ name) fn) as Hj.
    rewrite (splitLast_child dir name Hname) in Hj. simpl in Hj.
    rewrite !str_app_assoc in Hj. simpl in Hj. simpl. now apply Hj. }
  assert (callPaths (Some {| Name := dir +:+ "/" +:+ name +:+ "." +:+ fn;
                             File := file; Line := line |} :: rest)
          = (dir +:+ "/" +:+ name, dir +:+ "/" +:+ name +:+ "." +:+ fn)) as Hc.
  { unfold callPaths, resolved. simpl in *. now rewrite HP. }
  split; [exact Hc|]. split.
  - rewrite Part001_skip_paths, Hc.
    rewrite (PathLevel_found _ m 1 td); [reflexivity|]. split.
    + cbv [iterDir]. rewrite <- Hd. f_equal.
      transitivity (Clean dir); [|exact Hclean].
      apply (Dir_child dir (name +:+ "." +:+ fn) Hdir).
      rewrite hasSlash_app. simpl. now rewrite Hname, Hfn.
    + intros k Hk. assert (k = 0%nat) as -> by lia. exact HF.
  - rewrite Clog_skip_paths, Hc, HF, Hp. reflexivity.
Qed.

(** The debug threshold on "app" and the warn threshold on "app/worker". *)
Lemma directory_shadows_package_witness :
  Part001.skip (frameOf "Debug" :: workerCaller) LevelDebug
    (<["app" := LevelDebug]> workerRegistry) = false
  /\ Clog.skip (frameOf "Debug" :: workerCaller) LevelDebug
       (<["app" := LevelDebug]> workerRegistry) = true.
Proof.
  assert (Clean "app" = "app") as Hclean by reflexivity.
  assert ("app" <> "") as Hdir by (apply (bool_decide_unpack _); vm_compute; exact I).
  assert ((<["app" := LevelDebug]> workerRegistry : gmap string Z)
            !! ("app" +:+ "/" +:+ "worker" +:+ "." +:+ "Process") = None) as HF
    by (vm_compute; reflexivity).
  assert ((<["app" := LevelDebug]> workerRegistry : gmap string Z) !! "app"
          = Some LevelDebug) as Hd by (vm_compute; reflexivity).
  assert ((<["app" := LevelDebug]> workerRegistry : gmap string Z)
            !! ("app" +:+ "/" +:+ "worker") = Some LevelWarn) as Hp
    by (vm_compute; reflexivity).
  destruct (directory_shadows_package "app" "worker" "Process" "worker.go" 12
              LevelDebug LevelWarn LevelDebug (<["app" := LevelDebug]> workerRegistry)
              (frameOf "Debug") [] Hclean Hdir eq_refl eq_refl eq_refl HF Hd Hp)
    as [_ [H1 H2]].
  split; [exact H1 | exact H2].
Defined.

(** X13: the threshold of a package governs the calls of its functions that
    have no entry of their own: for a package path [P] whose final segment
    has no period and a function [fn], a call from [P.fn] is suppressed iff
    the threshold of [P] is greater than the severity, in
    [src/unnamed/part_000] and [src/clog.go], and in [src/unnamed/part_001]
    when no path of the ascent from [P.fn] has an entry. *)
Theorem package_level_governs (P fn file : string) (line : Z) (t s : Level)
    (m : gmap string Level) (e : Frame) (rest : list Frame)
    (HP : hasPeriod (snd (splitLast P)) = false) (Hfn : hasSlash fn = false)
    (HF : m !! (P +:+ "." +:+ fn) = None)
    (Hp : m !! P = Some t) :
  Part000.skip (e :: Some {| Name := P +:+ "." +:+ fn; File := file; Line := line |}
                :: rest) s m = (t >? s)
  /\ Clog.skip (e :: Some {| Name := P +:+ "." +:+ fn; File := file; Line := line |}
                :: rest) s m = (t >? s)
  /\ ((forall n, (1 <= n)%nat -> m !! iterDir n (P +:+ "." +:+ fn) = None) ->
      Part001.skip (e :: Some {| Name := P +:+ "." +:+ fn; File := file; Line := line |}
                    :: rest) s m = (t >? s)).
Proof.
  assert (callPaths (Some {| Name := P +:+ "." +:+ fn; File := file; Line := line |}
                     :: rest) = (P, P +:+ "." +:+ fn)) as Hc.
  { unfold callPaths, resolved. cbv [Name]. now rewrite (getPkgPath_join P fn HP Hfn). }
  split; [|split].
  - rewrite Part000_skip_paths, Hc, HF, Hp. reflexivity.
  - rewrite Clog_skip_paths, Hc, HF, Hp. reflexivity.
  - intros Hno. rewrite Part001_skip_paths, Hc.
    rewrite (PathLevel_not_found (P +:+ "." +:+ fn) m).
    + now rewrite (PathLevel_exact P m t Hp).
    + intros [|n]; [exact HF | apply Hno; lia].
Qed.

Lemma package_level_governs_witness :
  Part000.skip (frameOf "Debug" :: workerCaller) LevelDebug workerRegistry = true
  /\ Clog.skip (frameOf "Debug" :: workerCaller) LevelDebug workerRegistry = true
  /\ Part001.skip (frameOf "Debug" :: workerCaller) LevelDebug workerRegistry = true.
Proof.
  assert (workerRegistry !! ("app/worker" +:+ "." +:+ "Process") = None) as HF
    by (vm_compute; reflexivity).
  assert (workerRegistry !! "app/worker" = Some LevelWarn) as Hp
    by (vm_compute; reflexivity).
  destruct (package_level_governs "app/worker" "Process" "worker.go" 12 LevelWarn
              LevelDebug workerRegistry (frameOf "Debug") [] eq_refl eq_refl HF Hp)
    as [H0 [H1 H2]].
  split; [exact H0|]. split; [exact H1|]. apply H2.
  intros n Hn. destruct n as [|[|n]]; [lia| |]; simpl.
  - vm_compute. reflexivity.
  - change (Dir "app/worker.Process") with "app". change (Dir "app") with ".".
    rewrite iterDir_fixed by reflexivity. vm_compute. reflexivity.
Defined.

(** X14: the level set for the function path of a caller decides its calls.
    After [SetPathLevel] on the name of the calling function, [skip] of
    [src/clog.go] and of [src/unnamed/part_001] suppresses iff that level is
    greater than the severity, whatever else the registry holds; [skip] of
    [src/unnamed/part_000] suppresses then too, and also when the threshold
    of the package path does. *)
Theorem function_level_decides (fn : Func) (e : Frame) (rest : list Frame)
    (l s : Level) (m : gmap string Level) (cs : Clog.State) (st : Part001.State) :
  Clog.skip (e :: Some fn :: rest) s
    (Clog.activeLevel (Clog.SetPathLevel (Name fn) l cs)) = (l >? s)
  /\ Part001.skip (e :: Some fn :: rest) s
       (Part001.activeLevel (Part001.SetPathLevel (Name fn) l st)) = (l >? s)
  /\ Part000.skip (e :: Some fn :: rest) s (Part000.SetPathLevel (Name fn) l m)
     = (l >? s)
       || match Part000.SetPathLevel (Name fn) l m !! getPkgPath (Name fn) with
          | Some pl => pl >? s
          | None => false
          end.
Proof.
  split; [|split].
  - rewrite Clog_skip_paths. unfold callPaths. simpl.
    now rewrite lookup_insert_eq.
  - rewrite Part001_skip_paths. unfold callPaths. simpl resolved. cbv iota beta.
    rewrite (PathLevel_exact (Name fn) _ l); [reflexivity|].
    simpl. apply lookup_insert_eq.
  - rewrite Part000_skip_paths. unfold callPaths, Part000.SetPathLevel. simpl.
    now rewrite lookup_insert_eq.
Qed.

(** ** The entry points *)

(** An entry point of [Part000] returns at once when [skip] says so, and
    otherwise appends the write sequence of the message, and the exit of the
    error tier, to the events. *)
Lemma call000_run `{Externals} t c caller format arg args st :
  call000 t c caller format arg args st =
    if Part000.skip (frameOf (entryName t c) :: caller) (severity t) (Part000.activeLevel st)
    then st
    else fold_left (fun st ev => Part000.emit ev st)
           (sequence000 t c caller format arg args ++ exitOf t) st.
Proof.
  destruct st as [m evs].
  destruct t, c; unfold call000, sequence000, bodyWrites, body, operands000, tagClog; simpl;
    unfold Part000.Debug, Part000.Debugf, Part000.Debugln,
      Part000.Info, Part000.Infof, Part000.Infoln,
      Part000.Warn, Part000.Warnf, Part000.Warnln,
      Part000.Fatal, Part000.Fatalf, Part000.Fatalln; simpl;
    match goal with |- context [Part000.skip ?a ?b ?c] => destruct (Part000.skip a b c) end;
    try reflexivity;
    unfold Part000.getPrefix; rewrite ?callerName_entry, ?getFileLine_caller;
    unfold Part000.Fprint, Part000.Fprintf, Part000.Fprintln, Part000.os_Exit, Part000.emit;
    simpl; rewrite ?Sprint_string, ?Sprintsp_nil; simpl;
    destruct (resolved caller); simpl; rewrite ?Sprint_string; reflexivity.
Qed.

Lemma fold_emit000 evs st :
  Part000.events (fold_left (fun st ev => Part000.emit ev st) evs st)
    = (Part000.events st ++ evs)%list
  /\ Part000.activeLevel (fold_left (fun st ev => Part000.emit ev st) evs st)
     = Part000.activeLevel st.
Proof.
  revert st. induction evs as [|ev evs IH]; intros st; simpl.
  - now rewrite app_nil_r.
  - destruct (IH (Part000.emit ev st)) as [-> ->]. simpl. now rewrite <- app_assoc.
Qed.

Lemma onSink_sequence w t ps :
  Forall (onSink w t) (map (EvWrite w) ps ++ exitOf t).
Proof.
  apply Forall_app. split.
  - induction ps as [|p ps IH]; simpl; constructor; [reflexivity | exact IH].
  - destruct t; simpl; repeat constructor.
Qed.

(** X15: an entry point only appends events.  In the three revisions a call
    leaves the registry and the configuration as they are, keeps the earlier
    events, and adds nothing but writes on the sink of its own tier
    (standard error in [src/unnamed/part_000]) and, in the error tier, the
    exit with status 1. *)
Theorem entry_points_only_append `{Externals} (t : Tier) (c : Convention)
    (caller : list Frame) (format : string) (arg : any) (args : list any)
    (ps : Part000.State) (cs : Clog.State) (st : Part001.State) :
  (Part000.activeLevel (call000 t c caller format arg args ps) = Part000.activeLevel ps
   /\ exists new,
        Part000.events (call000 t c caller format arg args ps)
          = (Part000.events ps ++ new)%list
        /\ Forall (onSink Stderr t) new)
  /\ (configClog (callClog t c caller format args cs) = configClog cs
      /\ exists new,
           Clog.events (callClog t c caller format args cs) = (Clog.events cs ++ new)%list
           /\ Forall (onSink (sinkClog t cs) t) new)
  /\ (config001 (call001 t c caller format args st) = config001 st
      /\ exists new,
           Part001.events (call001 t c caller format args st)
             = (Part001.events st ++ new)%list
           /\ Forall (onSink (sink001 t st) t) new).
Proof.
  split; [|split].
  - rewrite call000_run. destruct (Part000.skip _ _ _).
    + split; [reflexivity|]. exists []. split; [now rewrite app_nil_r | constructor].
    + destruct (fold_emit000 (sequence000 t c caller format arg args ++ exitOf t) ps)
        as [-> ->]. split; [reflexivity|].
      eexists. split; [reflexivity|]. apply onSink_sequence.
  - rewrite callClog_run. destruct (Clog.skip _ _ _).
    + split; [reflexivity|]. exists []. split; [now rewrite app_nil_r | constructor].
    + destruct (fold_emitClog (sequenceClog t c caller format args cs ++ exitOf t) cs)
        as [-> ->]. split; [reflexivity|].
      eexists. split; [reflexivity|]. apply onSink_sequence.
  - rewrite call001_run. destruct (Part001.skip _ _ _).
    + split; [reflexivity|]. exists []. split; [now rewrite app_nil_r | constructor].
    + destruct (fold_emit001 (sequence001 t c caller format args st ++ exitOf t) st)
        as [-> ->]. split; [reflexivity|].
      eexists. split; [reflexivity|]. apply onSink_sequence.
Qed.


(** X17: the prefix flag of a tier decides alone whether a call of that tier
    writes its prefix: after [SetDebugPrefix], [SetInfoPrefix],
    [SetWarnPrefix] or [SetErrorPrefix] with [b], a call of that tier that is
    not suppressed writes the prefix first iff [b] is set, then the body and
    the newline; the calls of the other tiers go by their own flags. *)
Theorem SetPrefix_controls_prefix `{Externals} (t t' : Tier) (c : Convention)
    (caller : list Frame) (format : string) (args : list any) (b : bool)
    (st : Part001.State) :
  Part001.events (call001 t c caller format args (setPrefix001 t' b st))
  = if Part001.skip (frameOf (entryName t c) :: caller) (severity t)
         (Part001.activeLevel st)
    then Part001.events st
    else (Part001.events st
          ++ map (EvWrite (sink001 t st))
               ((if (if tierEqb t t' then b else usePrefix001 t st)
                 then [tag001 t caller st] else [])
                ++ bodyWrites c format args)
          ++ exitOf t)%list.
Proof.
  rewrite call001_run.
  assert (Part001.activeLevel (setPrefix001 t' b st) = Part001.activeLevel st) as ->
    by now destruct t'.
  destruct (Part001.skip _ _ _); [now destruct t'|].
  rewrite (proj1 (fold_emit001 _ _)).
  destruct st as [m mp dO dP iO iP wO wP eO eP evs].
  destruct t, t'; reflexivity.
Qed.

Lemma textOf_app evs evs' : textOf (evs ++ evs') = textOf evs +:+ textOf evs'.
Proof.
  induction evs as [|[w p|code] evs IH]; simpl; [reflexivity| |exact IH].
  now rewrite IH, str_app_assoc.
Qed.

Lemma textOf_exitOf t : textOf (exitOf t) = "".
Proof. now destruct t. Qed.

Lemma str_app_nil_r s : s +:+ "" = s.
Proof. induction s as [|c s IH]; simpl; [reflexivity | now rewrite IH]. Qed.

Lemma textOf_bodyWrites `{Externals} w c format args :
  textOf (map (EvWrite w) (bodyWrites c format args)) = body c format args +:+ newline.
Proof.
  destruct c; simpl; rewrite ?str_app_nil_r; reflexivity.
Qed.

(** X18: the bytes of a message.  Whatever the calling convention, a call
    that is not suppressed sends the prefix, the body and one newline, in
    this order: the line convention, which writes body and newline at once,
    sends the bytes the others send in two writes.  A suppressed call sends
    nothing.  In the three revisions. *)
Theorem emitted_text `{Externals} (t : Tier) (c : Convention)
    (caller : list Frame) (format : string) (arg : any) (args : list any)
    (ps : Part000.State) (cs : Clog.State) (st : Part001.State) :
  textOf (Part000.events (call000 t c caller format arg args ps))
  = textOf (Part000.events ps)
    +:+ (if Part000.skip (frameOf (entryName t c) :: caller) (severity t)
              (Part000.activeLevel ps)
         then ""
         else tagClog t caller +:+ body c format (operands000 c arg args) +:+ newline)
  /\ textOf (Clog.events (callClog t c caller format args cs))
     = textOf (Clog.events cs)
       +:+ (if Clog.skip (frameOf (entryName t c) :: caller) (severity t)
                 (Clog.activeLevel cs)
            then ""
            else tagClog t caller +:+ body c format args +:+ newline)
  /\ textOf (Part001.events (call001 t c caller format args st))
     = textOf (Part001.events st)
       +:+ (if Part001.skip (frameOf (entryName t c) :: caller) (severity t)
                 (Part001.activeLevel st)
            then ""
            else (if usePrefix001 t st then tag001 t caller st else "")
                 +:+ body c format args +:+ newline).
Proof.
  split; [|split].
  - rewrite call000_run. destruct (Part000.skip _ _ _); [now rewrite str_app_nil_r|].
    rewrite (proj1 (fold_emit000 _ _)). unfold sequence000.
    rewrite !textOf_app, textOf_exitOf, str_app_nil_r. simpl.
    now rewrite textOf_bodyWrites.
  - rewrite callClog_run. destruct (Clog.skip _ _ _); [now rewrite str_app_nil_r|].
    rewrite (proj1 (fold_emitClog _ _)). unfold sequenceClog.
    rewrite !textOf_app, textOf_exitOf, str_app_nil_r. simpl.
    now rewrite textOf_bodyWrites.
  - rewrite call001_run. destruct (Part001.skip _ _ _); [now rewrite str_app_nil_r|].
    rewrite (proj1 (fold_emit001 _ _)). unfold sequence001.
    rewrite !textOf_app, textOf_exitOf, str_app_nil_r, map_app, textOf_app.
    rewrite textOf_bodyWrites.
    destruct (usePrefix001 t st); simpl; rewrite ?str_app_nil_r; reflexivity.
Qed.

Lemma firstn_skipn_nth {A} (k : nat) (l : list A) :
  firstn 1 (skipn k l) = match nth_error l k with Some x => [x] | None => [] end.
Proof.
  revert l. induction k as [|k IH]; intros [|x l]; simpl; try reflexivity.
  apply IH.
Qed.

(** X19: [callerName skip] reports the function [skip] frames above the one
    that calls it, and fails when the stack is shorter or the frame has no
    function.  So the three stack inspections of one call, with the counts
    3 in [getQualifiedPaths] and 2 in [getPrefix] and [getFileLine], report
    the same frame: the caller of the entry point, never a function of the
    package. *)
Theorem callerName_reports_frame (skip : nat) (stack : list Frame)
    (e : Frame) (caller : list Frame) :
  callerName skip stack
  = match nth_error stack skip with
    | Some (Some fn) => (Name fn, File fn, Line fn, true)
    | _ => ("", "", 0, false)
    end
  /\ callerName 3 (frameOf "getQualifiedPaths" :: frameOf "skip" :: e :: caller)
     = callerName 2 (frameOf "getPrefix" :: e :: caller)
  /\ callerName 2 (frameOf "getPrefix" :: e :: caller)
     = callerName 2 (frameOf "getFileLine" :: e :: caller)
  /\ callerName 2 (frameOf "getFileLine" :: e :: caller)
     = match caller with
       | Some fn :: _ => (Name fn, File fn, Line fn, true)
       | _ => ("", "", 0, false)
       end.
Proof.
  split.
  - unfold callerName. replace (skip + 2)%nat with (S (S skip)) by lia.
    change (skipn (S (S skip)) (?a :: ?b :: stack)) with (skipn skip stack).
    rewrite firstn_skipn_nth. unfold Frame in *.
    destruct (nth_error stack skip) as [[fn|]|]; reflexivity.
  - rewrite callerName_skip, !callerName_entry. unfold resolved.
    repeat split; destruct caller as [|[fn|] rest]; reflexivity.
Qed.

(** X20: the ascent of [PathLevel] ends at "." or at "/", and nowhere else.
    These two are the only paths that are their own [Dir]; [Dir] is never
    empty, so the test [len(dir) == 0] of the loop never holds and the loop
    is left by [dir == path] only; and every path reaches one of the two
    within [String.length path + 1] steps. *)
Theorem ascent_ends_at_root (path : string) :
  (Dir path = path <-> path = "." \/ path = "/")
  /\ (len (Dir path) =? 0) = false
  /\ exists k, (k <= S (String.length path))%nat
       /\ (iterDir k path = "." \/ iterDir k path = "/").
Proof.
  assert (forall p, Dir p = p -> p = "." \/ p = "/") as Hfix.
  { intros p E. destruct (string_dec (fst (splitLast p)) "") as [Hd|Hd].
    - left. now rewrite <- E, (Dir_noslash p Hd).
    - destruct (string_dec p "/") as [Hr|Hr]; [now right|].
      pose proof (Dir_shorter p Hd Hr) as Hs. rewrite E in Hs. lia. }
  split; [|split].
  - split; [apply Hfix|]. intros [-> | ->]; reflexivity.
  - pose proof (Dir_nonempty path) as Hn. unfold len.
    destruct (Dir path); [congruence|reflexivity].
  - destruct (ascent_reaches_root _ path (le_n _)) as [k [Hk E]].
    exists k. split; [exact Hk | now apply Hfix].
Qed.

Lemma ascent_ends_at_root_witness :
  Dir "." = "." /\ Dir "/" = "/"
  /\ ("github.com/mewpkg/clog" = "." \/ "github.com/mewpkg/clog" = "/" -> False).
Proof.
  split; [|split].
  - apply (proj2 (proj1 (ascent_ends_at_root "."))). left. reflexivity.
  - apply (proj2 (proj1 (ascent_ends_at_root "/"))). right. reflexivity.
  - intros [E|E]; revert E; apply (bool_decide_unpack _); vm_compute; exact I.
Defined.

(** ** Rooted and relative paths *)

Lemma last_cons_ne {A} (c : A) (out : list A) d :
  out <> [] -> List.last (c :: out) d = List.last out d.
Proof. destruct out; [congruence | reflexivity]. Qed.

Lemma backtrack_ge out dotdot :
  (dotdot < length out)%nat -> (dotdot <= length (backtrack out dotdot))%nat.
Proof.
  induction out as [|c out IH]; simpl; [lia|]. intros Hlt.
  destruct (Nat.ltb_spec dotdot (length out)); simpl; [|lia].
  destruct (negb (isPathSeparator c)); [now apply IH | lia].
Qed.

Lemma backtrack_last out dotdot d :
  backtrack out dotdot <> [] -> List.last (backtrack out dotdot) d = List.last out d.
Proof.
  induction out as [|c out IH]; simpl; [congruence|]. intros Hne.
  destruct ((dotdot <? length out)%nat && negb (isPathSeparator c)).
  - assert (out <> []) as Ho by (intros ->; now apply Hne).
    rewrite (IH Hne). now destruct out.
  - now destruct out.
Qed.

(** The first byte of the output of the loop is the separator for a rooted
    path, and for no other. *)
Lemma cleanLoop_bottom n :
  forall rest, (String.length rest <= n)%nat ->
  forall (rooted copying : bool) (out : list ascii) (dotdot : nat),
    Ascii.eqb (List.last out "."%char) "/" = rooted ->
    (rooted = true -> (1 <= dotdot)%nat) ->
    (copying = true -> out <> []) ->
    Ascii.eqb (List.last (cleanLoop rooted copying rest out dotdot) "."%char) "/" = rooted.
Proof.
  induction n as [|n IH]; intros rest Hl rooted copying out dotdot Hb Hd Hc.
  - destruct rest; [exact Hb | simpl in Hl; lia].
  - destruct rest as [|c rest']; [exact Hb|]. simpl in Hl.
    assert (String.length rest' <= n)%nat as Hl' by lia.
    assert (forall x : ascii, out <> [] ->
              Ascii.eqb (List.last (x :: out) "."%char) "/" = rooted) as Hpush.
    { intros x Ho. now rewrite (last_cons_ne x out _ Ho). }
    simpl cleanLoop. destruct copying.
    { destruct (isPathSeparator c).
      - apply (IH rest' Hl'); [exact Hb | exact Hd | discriminate].
      - apply (IH rest' Hl'); [apply Hpush; now apply Hc | exact Hd | discriminate]. }
    destruct (isPathSeparator c) eqn:Hsep.
    { apply (IH rest' Hl'); [exact Hb | exact Hd | discriminate]. }
    destruct (Ascii.eqb c "." && atElemEnd rest').
    { apply (IH rest' Hl'); [exact Hb | exact Hd | discriminate]. }
    assert (Ascii.eqb (List.last (cleanLoop rooted true rest'
              (c :: (if rooted && negb (length out =? 1)%nat
                        || negb rooted && negb (length out =? 0)%nat
                     then "/"%char :: out else out)) dotdot) "."%char) "/" = rooted)
      as Helem.
    { apply (IH rest' Hl'); [|exact Hd|discriminate].
      destruct out as [|o out'].
      - destruct rooted; [simpl in Hb; discriminate|]. simpl. exact Hsep.
      - set (out := o :: out') in *.
        destruct (rooted && negb (length out =? 1)%nat
                  || negb rooted && negb (length out =? 0)%nat).
        + rewrite last_cons_ne by discriminate. now apply Hpush.
        + now apply Hpush. }
    destruct rest' as [|c' rest'']; [exact Helem|].
    destruct (Ascii.eqb c "." && Ascii.eqb c' "." && atElemEnd rest''); [|exact Helem].
    simpl in Hl'. assert (String.length rest'' <= n)%nat as Hl'' by lia.
    destruct (Nat.ltb_spec dotdot (length out)) as [Hlt|Hge].
    { apply (IH rest'' Hl''); [|exact Hd|discriminate].
      pose proof (backtrack_ge out dotdot Hlt) as Hbg.
      destruct (backtrack out dotdot) as [|b bs] eqn:Eb.
      - destruct rooted; [specialize (Hd eq_refl); simpl in Hbg; lia | reflexivity].
      - rewrite <- Eb. rewrite backtrack_last by (rewrite Eb; discriminate). exact Hb. }
    destruct rooted; simpl.
    { apply (IH rest'' Hl''); [exact Hb | exact Hd | discriminate]. }
    apply (IH rest'' Hl''); [|discriminate|discriminate].
    destruct out as [|o out']; [reflexivity|].
    simpl (0 <? _)%nat. cbv iota.
    rewrite !last_cons_ne by discriminate. exact Hb.
Qed.

Lemma isRooted_of_rev out :
  out <> [] ->
  isRooted (string_of_list_ascii (rev out)) = isPathSeparator (List.last out "."%char).
Proof.
  assert (forall l (c : ascii), l <> [] ->
            isRooted (string_of_list_ascii (l ++ [c]))
            = isRooted (string_of_list_ascii l)) as Happ.
  { intros [|x l] c Hl; [congruence | reflexivity]. }
  induction out as [|c out IH]; [congruence|]. intros _.
  destruct out as [|o out']; [reflexivity|].
  change (rev (c :: o :: out')) with (rev (o :: out') ++ [c])%list.
  rewrite Happ.
  - rewrite IH by discriminate. reflexivity.
  - intros Er. apply (f_equal (@length ascii)) in Er.
    rewrite length_rev in Er. discriminate.
Qed.

(** [Clean] keeps a rooted path rooted and a relative path relative. *)
Lemma Clean_rooted path : isRooted (Clean path) = isRooted path.
Proof.
  destruct path as [|c rest]; [reflexivity|]. unfold Clean.
  set (out := if isPathSeparator c then _ else _).
  assert (Ascii.eqb (List.last out "."%char) "/" = isPathSeparator c) as Hb.
  { subst out. destruct (isPathSeparator c).
    - apply (cleanLoop_bottom _ rest (le_n _) true false); [reflexivity|lia|discriminate].
    - apply (cleanLoop_bottom _ (String c rest) (le_n _) false false);
        [reflexivity|discriminate|discriminate]. }
  clearbody out. change (isRooted (String c rest)) with (isPathSeparator c).
  destruct out as [|o out'].
  - simpl in *. now rewrite <- Hb.
  - change ((length (o :: out') =? 0)%nat) with false. cbv iota.
    rewrite isRooted_of_rev by discriminate. exact Hb.
Qed.

(** [Dir] keeps a rooted path rooted and a relative path relative. *)
Lemma Dir_rooted path : isRooted (Dir path) = isRooted path.
Proof.
  unfold Dir. rewrite slice_to_LastIndex, Clean_rooted.
  pose proof (splitLast_app path) as Hs. pose proof (splitLast_snd_noslash path) as Hn.
  destruct (splitLast path) as [d f]; simpl in *. subst path.
  destruct d as [|c d']; [|reflexivity]. simpl.
  destruct f as [|c f']; [reflexivity|]. simpl in *.
  unfold isPathSeparator. now destruct (Ascii.eqb c "/").
Qed.

Lemma iterDir_rooted n path : isRooted (iterDir n path) = isRooted path.
Proof.
  revert path. induction n as [|n IH]; intros path; simpl; [reflexivity|].
  now rewrite IH, Dir_rooted.
Qed.

Lemma Dir_fixed_points p : Dir p = p -> p = "." \/ p = "/".
Proof.
  intros E. destruct (string_dec (fst (splitLast p)) "") as [Hd|Hd].
  - left. now rewrite <- E, (Dir_noslash p Hd).
  - destruct (string_dec p "/") as [Hr|Hr]; [now right|].
    pose proof (Dir_shorter p Hd Hr) as Hs. rewrite E in Hs. lia.
Qed.

(** X21: in [src/unnamed/part_001] an entry for "." is a default for every
    relative path, the empty path of an unresolved caller included: the
    ascent from a path that does not begin with a slash ends at ".", so with
    a threshold [t] set for "." the lookup of such a path always finds a
    level, and finds [t] when no other path of the ascent has an entry.  The
    same holds for "/" and the rooted paths. *)
Theorem root_entry_is_default (path : string) (m : gmap string Level) (t : Level)
    (Hroot : m !! (if isRooted path then "/" else ".") = Some t) :
  (exists k, (k <= S (String.length path))%nat
     /\ iterDir k path = (if isRooted path then "/" else "."))
  /\ (exists t', Part001.PathLevel path m = (t', true))
  /\ ((forall k, iterDir k path <> (if isRooted path then "/" else ".") ->
         m !! iterDir k path = None) ->
      Part001.PathLevel path m = (t, true)).
Proof.
  assert (exists k, (k <= S (String.length path))%nat
            /\ iterDir k path = (if isRooted path then "/" else ".")) as [k [Hk Ek]].
  { destruct (ascent_reaches_root _ path (le_n _)) as [k [Hk E]].
    exists k. split; [exact Hk|].
    pose proof (iterDir_rooted k path) as Hr.
    destruct (Dir_fixed_points _ E) as [E'|E']; rewrite E' in Hr |- *;
      simpl in Hr; rewrite <- Hr; reflexivity. }
  pose proof (PathLevel_sound path m) as Hs.
  split; [eauto|].
  destruct (Part001.PathLevel path m) as [t' [|]].
  - split; [eauto|]. intros Hnone. destruct Hs as [n [Hn _]].
    destruct (string_dec (iterDir n path) (if isRooted path then "/" else "."))
      as [E|E].
    + rewrite E, Hroot in Hn. congruence.
    + rewrite (Hnone n E) in Hn. discriminate.
  - destruct Hs as [_ Hnone]. specialize (Hnone k). rewrite Ek, Hroot in Hnone.
    discriminate.
Qed.

Lemma root_entry_is_default_witness :
  (exists t', Part001.PathLevel "github.com/mewpkg/clog.Debugf"
                (Part001.activeLevel dotState) = (t', true))
  /\ Part001.PathLevel "" (Part001.activeLevel dotState) = (LevelError, true).
Proof.
  assert (Part001.activeLevel dotState !! "." = Some LevelError) as Hroot
    by (vm_compute; reflexivity).
  split.
  - exact (proj1 (proj2 (root_entry_is_default "github.com/mewpkg/clog.Debugf"
                           (Part001.activeLevel dotState) LevelError Hroot))).
  - apply (proj2 (proj2 (root_entry_is_default ""
                           (Part001.activeLevel dotState) LevelError Hroot))).
    intros k Hk. destruct k as [|k]; [vm_compute; reflexivity|].
    exfalso. apply Hk. simpl. change (Dir "") with ".". now apply iterDir_fixed.
Defined.

(** ** Prefixes and the initial state *)

(** X22: the prefix shows the name set by [SetMainPrefixName] for the callers
    of package main, and for them only.  After [SetMainPrefixName n],
    [getPrefix] for a resolved caller is the styled text "n:" when [n] is not
    empty and the package name of the caller is "main", and the styled
    package name of the caller otherwise; what was set before plays no
    part. *)
Theorem main_prefix_in_output `{Externals} (fn : Func) (e : Frame) (rest : list Frame)
    (colorFunc : string -> string) (n : string) (st : Part001.State) :
  Part001.getPrefix (e :: Some fn :: rest) colorFunc (Part001.SetMainPrefixName n st)
  = colorFunc
      ((if String.eqb (derivedPkgName (Name fn)) "main" && negb (String.eqb n "")
        then n else derivedPkgName (Name fn)) +:+ ":") +:+ " ".
Proof.
  rewrite getPrefix001_caller. simpl. unfold Part001.getPkgName, derivedPkgName.
  rewrite pkgNameOf_splitLast.
  destruct (String.eqb (untilPeriod (snd (splitLast (Name fn)))) "main"); simpl;
    [|reflexivity].
  destruct n; reflexivity.
Qed.

(** X23: a process that has configured nothing suppresses no call and sends
    every message to standard error with its prefix: in the initial state of
    each revision a call from a resolved caller writes the styled package
    name (and the file:line tag in the warn and error tiers), the body and
    the newline on [os.Stderr], and the error tier then exits. *)
Theorem initial_state_emits `{Externals} (t : Tier) (c : Convention) (fn : Func)
    (rest : list Frame) (format : string) (arg : any) (args : list any) :
  Part000.events (call000 t c (Some fn :: rest) format arg args Part000.init)
  = (map (EvWrite Stderr)
       ((style t (pkgNameOf (Name fn) +:+ ":") +:+ " "
         +:+ match t with TWarn | TError => fileLineTag fn | _ => "" end)
        :: bodyWrites c format (operands000 c arg args))
     ++ exitOf t)%list
  /\ Clog.events (callClog t c (Some fn :: rest) format args Clog.init)
     = (map (EvWrite Stderr)
          ((style t (pkgNameOf (Name fn) +:+ ":") +:+ " "
            +:+ match t with TWarn | TError => fileLineTag fn | _ => "" end)
           :: bodyWrites c format args)
        ++ exitOf t)%list
  /\ Part001.events (call001 t c (Some fn :: rest) format args Part001.init)
     = (map (EvWrite Stderr)
          ((style t (pkgNameOf (Name fn) +:+ ":") +:+ " "
            +:+ match t with TWarn | TError => fileLineTag fn | _ => "" end)
           :: bodyWrites c format args)
        ++ exitOf t)%list.
Proof.
  assert (forall p, Part001.PathLevel p ∅ = (0, false)) as H1.
  { intros p. apply PathLevel_not_found. intros n. apply lookup_empty. }
  split; [|split].
  - rewrite call000_run, Part000_skip_paths. simpl Part000.activeLevel.
    destruct (callPaths (Some fn :: rest)) as [P F]. rewrite !lookup_empty.
    rewrite (proj1 (fold_emit000 _ _)). unfold sequence000, tagClog. simpl.
    destruct t; simpl; rewrite ?str_app_assoc, ?str_app_nil_r; reflexivity.
  - rewrite callClog_run, Clog_skip_paths. simpl Clog.activeLevel.
    destruct (callPaths (Some fn :: rest)) as [P F]. rewrite !lookup_empty.
    rewrite (proj1 (fold_emitClog _ _)). unfold sequenceClog, tagClog. simpl.
    destruct t; simpl; rewrite ?str_app_assoc, ?str_app_nil_r; reflexivity.
  - rewrite call001_run, Part001_skip_paths. simpl Part001.activeLevel.
    destruct (callPaths (Some fn :: rest)) as [P F]. rewrite !H1.
    rewrite (proj1 (fold_emit001 _ _)). unfold sequence001, tag001. simpl.
    unfold Part001.getPkgName. simpl. rewrite andb_false_r.
    destruct t; simpl; rewrite ?str_app_assoc, ?str_app_nil_r; reflexivity.
Qed.
